(** * dashvsm: the browser side of a two-player networked chess game

    A shallow embedding of the two scripts of the repository:

    - [chess_app/static/js/game.js], the game view controller: module-level
      state ([game], [playerColor], [selectedSquare]), the socket handlers,
      [renderBoard], [handleSquareClick] and the status helpers;
    - the lobby script (create / join a game).

    The chess rules engine ([new Chess()], chess.js) and the socket transport
    are libraries outside the repository.  The engine is taken as an interface
    (class [Chess]); the transport appears as the list of emitted events and as
    the handlers run on pushed events.  The DOM is the part of the page the
    scripts write: the board squares, three text fields and the move list. *)

From Stdlib Require Import String Ascii List ZArith Bool Lia DecimalString.
Import ListNotations.
Open Scope Z_scope.
Open Scope string_scope.

(** ** JavaScript values used by the scripts *)

Module JS.

(** Truthiness of a value that is a string, [null] or [undefined]. *)
Definition truthy (v : option string) : bool :=
  match v with
  | Some s => negb (s =? "")
  | None => false
  end.

(** [s[0]]: the first character as a one-character string. *)
Definition char0 (s : string) : option string :=
  match s with
  | String c _ => Some (String c "")
  | EmptyString => None
  end.

(** [s.charCodeAt(0)] (the scripts only call it on one-letter files). *)
Definition charCodeAt0 (s : string) : Z :=
  match s with
  | String c _ => Z.of_nat (nat_of_ascii c)
  | EmptyString => 0
  end.

(** [String.fromCharCode(n)] for a code below 256. *)
Definition fromCharCode (n : Z) : string :=
  String (ascii_of_nat (Z.to_nat n)) "".

(** An integer number inside a template literal. *)
Definition number (z : Z) : string :=
  NilZero.string_of_int (Z.to_int z).

(** [x === y] on values that are strings, [null] or [undefined]. *)
Definition strict_eq (x y : option string) : bool :=
  match x, y with
  | Some a, Some b => a =? b
  | None, None => true
  | _, _ => false
  end.

End JS.

(** ** The rules engine, as the scripts use it *)

Inductive Color := White | Black.

Definition colorLetter (c : Color) : string :=
  match c with White => "w" | Black => "b" end.

Inductive PieceType := Pawn | Knight | Bishop | Rook | Queen | King.

Definition typeLetter (t : PieceType) : string :=
  match t with
  | Pawn => "p" | Knight => "n" | Bishop => "b"
  | Rook => "r" | Queen => "q" | King => "k"
  end.

Definition isKing (t : PieceType) : bool :=
  match t with King => true | _ => false end.

Definition Color_eqb (a b : Color) : bool :=
  match a, b with
  | White, White | Black, Black => true
  | _, _ => false
  end.

(** What [game.get(square)] answers on an occupied square. *)
Record Piece := { color : Color; type : PieceType }.

(** A move object; the scripts read [san], [from] and [to]. *)
Record Move := { san : string; from : string; to : string }.

(** How a call of the engine's [move] ends: with a move object and the
    instance changed; with a falsy value, the instance left as it was (the
    answer the [else] branch of [handleSquareClick] is written for); or
    with an exception, the instance left as it was.  The 1.x releases of
    chess.js, whose method names the script uses, throw on a move they do
    not accept and never answer with a falsy value. *)
Inductive MoveAnswer (G : Type) :=
| moved (result : Move) (g' : G)
| falsy
| throws.

Arguments moved {G} result g'.
Arguments falsy {G}.
Arguments throws {G}.

(** How a call inside a handler ends: it returns a value, or it throws.
    The script has no [try]: an exception ends the handler that made the
    call, and what the handler had written before stays. *)
Inductive Completion (A : Type) :=
| returned (a : A)
| thrown.

Arguments returned {A} a.
Arguments thrown {A}.

(** The methods of a [Chess] instance that [game.js] calls.  The instance is
    mutable in the source; here every mutating method returns the new
    instance.  [load] answers [None] where the engine throws (it refuses
    the string and the instance is left as it was). *)
Class Chess (G : Type) := {
  newChess : G;
  load : G -> string -> option G;
  get : G -> string -> option Piece;
  turn : G -> Color;
  isGameOver : G -> bool;
  isCheckmate : G -> bool;
  isDraw : G -> bool;
  isStalemate : G -> bool;
  inCheck : G -> bool;
  originalMove : G -> string -> string -> string -> MoveAnswer G;
  fen : G -> string;
  history : G -> list Move;
  moves : G -> string -> list Move;
  board : G -> list (list (option Piece))
}.

(** ** The page *)

(** One [div.square] of the board with what [renderBoard] gives it. *)
Record SquareEl := {
  data_square : string;
  data_file : string;
  data_rank : string;
  classList : list string;
  children : list string
}.

Definition hasClass (c : string) (e : SquareEl) : bool :=
  existsb (String.eqb c) (classList e).

(** [classList.add(c)] *)
Definition classList_add (c : string) (e : SquareEl) : SquareEl :=
  {| data_square := data_square e;
     data_file := data_file e;
     data_rank := data_rank e;
     classList := if hasClass c e then classList e else classList e ++ [c];
     children := children e |}.

(** [document.querySelector('[data-square=...]')]: the first match. *)
Definition querySelector (sq : string) (b : list SquareEl) : option SquareEl :=
  find (fun e => data_square e =? sq) b.

(** [const el = document.querySelector(..); if (el) el.classList.add(c)] *)
Fixpoint addClassAt (sq c : string) (b : list SquareEl) : list SquareEl :=
  match b with
  | [] => []
  | e :: rest =>
      if data_square e =? sq then classList_add c e :: rest
      else e :: addClassAt sq c rest
  end.

(** Events sent to the server with [socket.emit]. *)
Inductive Emit :=
| join_game (game_id : string)
| make_move (game_id move fen : string).

(** Payloads pushed by the server; an absent field is [None]. *)
Record GameInfo := {
  info_fen : option string;
  info_color : option string;
  info_status : option string
}.

(** ** The game view controller ([game.js]) *)

Section GameView.

Context {G : Type} `{Chess G}.

(** [document.getElementById('gameId').textContent], read once at load. *)
Variable gameId : string.

(** The module-level variables of the script, the part of the page it
    writes, and the events it has emitted so far. *)
Record View := {
  game : G;
  playerColor : option string;
  selectedSquare : option string;
  boardElement : list SquareEl;
  gameStatus : string;
  whiteStatus : string;
  blackStatus : string;
  movesList : list string;
  emitted : list Emit
}.

Definition set_game (g : G) (v : View) : View :=
  {| game := g; playerColor := playerColor v;
     selectedSquare := selectedSquare v; boardElement := boardElement v;
     gameStatus := gameStatus v; whiteStatus := whiteStatus v;
     blackStatus := blackStatus v; movesList := movesList v;
     emitted := emitted v |}.

Definition set_playerColor (c : option string) (v : View) : View :=
  {| game := game v; playerColor := c;
     selectedSquare := selectedSquare v; boardElement := boardElement v;
     gameStatus := gameStatus v; whiteStatus := whiteStatus v;
     blackStatus := blackStatus v; movesList := movesList v;
     emitted := emitted v |}.

Definition set_selectedSquare (s : option string) (v : View) : View :=
  {| game := game v; playerColor := playerColor v;
     selectedSquare := s; boardElement := boardElement v;
     gameStatus := gameStatus v; whiteStatus := whiteStatus v;
     blackStatus := blackStatus v; movesList := movesList v;
     emitted := emitted v |}.

Definition set_boardElement (b : list SquareEl) (v : View) : View :=
  {| game := game v; playerColor := playerColor v;
     selectedSquare := selectedSquare v; boardElement := b;
     gameStatus := gameStatus v; whiteStatus := whiteStatus v;
     blackStatus := blackStatus v; movesList := movesList v;
     emitted := emitted v |}.

Definition set_gameStatus (t : string) (v : View) : View :=
  {| game := game v; playerColor := playerColor v;
     selectedSquare := selectedSquare v; boardElement := boardElement v;
     gameStatus := t; whiteStatus := whiteStatus v;
     blackStatus := blackStatus v; movesList := movesList v;
     emitted := emitted v |}.

Definition set_whiteStatus (t : string) (v : View) : View :=
  {| game := game v; playerColor := playerColor v;
     selectedSquare := selectedSquare v; boardElement := boardElement v;
     gameStatus := gameStatus v; whiteStatus := t;
     blackStatus := blackStatus v; movesList := movesList v;
     emitted := emitted v |}.

Definition set_blackStatus (t : string) (v : View) : View :=
  {| game := game v; playerColor := playerColor v;
     selectedSquare := selectedSquare v; boardElement := boardElement v;
     gameStatus := gameStatus v; whiteStatus := whiteStatus v;
     blackStatus := t; movesList := movesList v;
     emitted := emitted v |}.

Definition set_movesList (l : list string) (v : View) : View :=
  {| game := game v; playerColor := playerColor v;
     selectedSquare := selectedSquare v; boardElement := boardElement v;
     gameStatus := gameStatus v; whiteStatus := whiteStatus v;
     blackStatus := blackStatus v; movesList := l;
     emitted := emitted v |}.

(** [socket.emit(..)] *)
Definition socket_emit (e : Emit) (v : View) : View :=
  {| game := game v; playerColor := playerColor v;
     selectedSquare := selectedSquare v; boardElement := boardElement v;
     gameStatus := gameStatus v; whiteStatus := whiteStatus v;
     blackStatus := blackStatus v; movesList := movesList v;
     emitted := emitted v ++ [e] |}.

(** [playerColor[0]] *)
Definition playerLetter (v : View) : option string :=
  match playerColor v with
  | Some s => JS.char0 s
  | None => None
  end.

(** [game.turn() === playerColor[0]] *)
Definition isPlayersTurn (v : View) : bool :=
  JS.strict_eq (Some (colorLetter (turn (game v)))) (playerLetter v).

(** [piece && piece.color === playerColor[0]] *)
Definition isOwnPiece (piece : option Piece) (v : View) : bool :=
  match piece with
  | Some p => JS.strict_eq (Some (colorLetter (color p))) (playerLetter v)
  | None => false
  end.

(** *** Status line *)

(** The text a [case] of the [switch] in [updateGameStatus] writes; [None]
    where no [case] matches (the [switch] has no [default]). *)
Definition statusText (g : G) (status : string) : option string :=
  if status =? "waiting" then Some "Ожидание соперника..."
  else if status =? "active" then
    Some (match turn g with White => "Ход белых" | Black => "Ход черных" end)
  else if status =? "checkmate" then
    Some ("Мат! Победили " ++
          match turn g with White => "черные" | Black => "белые" end)
  else if status =? "draw" then Some "Ничья"
  else if status =? "stalemate" then Some "Пат"
  else if status =? "disconnected" then Some "Соперник отключился"
  else None.

Definition updateGameStatus (status : string) (v : View) : View :=
  match statusText (game v) status with
  | Some text => set_gameStatus text v
  | None => v
  end.

Definition checkGameStatus (v : View) : View :=
  if isCheckmate (game v) then updateGameStatus "checkmate" v
  else if isDraw (game v) then updateGameStatus "draw" v
  else if isStalemate (game v) then updateGameStatus "stalemate" v
  else v.

Definition updatePlayerStatus (v : View) : View :=
  if negb (JS.truthy (playerColor v)) then v
  else if JS.strict_eq (playerColor v) (Some "white") then
    let v := set_whiteStatus "Вы" v in
    match turn (game v) with
    | Black => set_blackStatus "Ход" v
    | White => set_blackStatus "Ожидание" v
    end
  else
    let v := set_blackStatus "Вы" v in
    match turn (game v) with
    | White => set_whiteStatus "Ход" v
    | Black => set_whiteStatus "Ожидание" v
    end.

(** *** Move list *)

(** The rows [updateMovesList] builds: the loop [for (i = 0; i < n; i += 2)]
    reads [history[i]] and [history[i + 1] || ''], so each turn of the
    loop consumes two entries of the history (one at its end). *)
Fixpoint moveItems (i : Z) (history : list string) : list string :=
  match history with
  | [] => []
  | whiteMove :: rest =>
      let moveNumber := i / 2 + 1 in
      match rest with
      | [] =>
          [JS.number moveNumber ++ ". " ++ whiteMove ++ " " ++ ""]
      | blackMove :: rest' =>
          (JS.number moveNumber ++ ". " ++ whiteMove ++ " " ++ blackMove)
            :: moveItems (i + 2) rest'
      end
  end.

Definition updateMovesList (v : View) : View :=
  set_movesList (moveItems 0 (map san (history (game v)))) v.

(** *** Board *)

Definition ranks (isFlipped : bool) : list Z :=
  if isFlipped then rev [1; 2; 3; 4; 5; 6; 7; 8]
  else [1; 2; 3; 4; 5; 6; 7; 8].

Definition files (isFlipped : bool) : list string :=
  if isFlipped then rev ["h"; "g"; "f"; "e"; "d"; "c"; "b"; "a"]
  else ["a"; "b"; "c"; "d"; "e"; "f"; "g"; "h"].

(** The body of the inner [forEach] of [renderBoard]. *)
Definition squareElement (v : View) (rank : Z) (file : string) : SquareEl :=
  let square := file ++ JS.number rank in
  let el := {| data_square := square; data_file := file;
               data_rank := JS.number rank;
               classList := ["square"]; children := [] |} in
  let isLight := Z.eqb (Z.rem (rank + JS.charCodeAt0 file - 96) 2) 0 in
  let el := classList_add (if isLight then "light" else "dark") el in
  let el := if JS.strict_eq (selectedSquare v) (Some square)
            then classList_add "selected" el else el in
  match get (game v) square with
  | Some piece =>
      {| data_square := data_square el; data_file := data_file el;
         data_rank := data_rank el; classList := classList el;
         children := ["piece piece-" ++ colorLetter (color piece) ++ "-"
                        ++ typeLetter (type piece)] |}
  | None => el
  end.

Definition highlightLastMove (v : View) : View :=
  match rev (history (game v)) with
  | lastMove :: _ =>
      let b := addClassAt (from lastMove) "last-move" (boardElement v) in
      let b := addClassAt (to lastMove) "last-move" b in
      set_boardElement b v
  | [] => v
  end.

(** The body of the two nested [for] loops of [highlightCheck]. *)
Definition checkCell (g : G) (b : list SquareEl) (rank file : nat)
  : list SquareEl :=
  match nth_error (nth rank (board g) []) file with
  | Some (Some square) =>
      if isKing (type square) && Color_eqb (color square) (turn g) then
        let fileChar := JS.fromCharCode (97 + Z.of_nat file) in
        let rankNum := 8 - Z.of_nat rank in
        addClassAt (fileChar ++ JS.number rankNum) "check" b
      else b
  | _ => b
  end.

Definition highlightCheck (v : View) : View :=
  if inCheck (game v) then
    set_boardElement
      (fold_left
         (fun b rank =>
            fold_left (fun b file => checkCell (game v) b rank file)
                      (seq 0 8) b)
         (seq 0 8) (boardElement v))
      v
  else v.

Definition renderBoard (v : View) : View :=
  let isFlipped := JS.strict_eq (playerColor v) (Some "black") in
  let squares :=
    flat_map (fun rank => map (fun file => squareElement v rank file)
                              (files isFlipped))
             (ranks isFlipped) in
  let v := set_boardElement squares v in
  let v := highlightLastMove v in
  highlightCheck v.

Definition highlightPossibleMoves (square : string) (v : View) : View :=
  set_boardElement
    (fold_left (fun b move => addClassAt (to move) "possible-move" b)
               (moves (game v) square) (boardElement v))
    v.

(** *** Clicks *)

(** [game.move], as replaced at the end of the script: the engine's own
    [move], followed on success by a refresh of the status lines.  An
    exception of the engine's [move] passes through the wrapper. *)
Definition game_move (from to promotion : string) (v : View)
  : Completion (option Move * View) :=
  match originalMove (game v) from to promotion with
  | moved result g' =>
      let v := set_game g' v in
      let v := updateGameStatus "active" v in
      let v := updatePlayerStatus v in
      returned (Some result, v)
  | falsy => returned (None, v)
  | throws => thrown
  end.

Definition handleSquareClick (square : string) (v : View) : View :=
  if negb (JS.truthy (playerColor v)) then v
  else if negb (isPlayersTurn v) then v
  else if isGameOver (game v) then v
  else
    let piece := get (game v) square in
    match selectedSquare v with
    | Some selected =>
        if selected =? "" then
          (* a falsy selection behaves as no selection *)
          if isOwnPiece piece v then
            let v := set_selectedSquare (Some square) v in
            let v := renderBoard v in
            highlightPossibleMoves square v
          else v
        else if selected =? square then
          let v := set_selectedSquare None v in
          renderBoard v
        else
          match game_move selected square "q" v with
          | returned (Some move, v) =>
              let v := socket_emit
                         (make_move gameId (san move) (fen (game v))) v in
              let v := set_selectedSquare None v in
              let v := renderBoard v in
              let v := updateMovesList v in
              let v := checkGameStatus v in
              let v := updateGameStatus "active" v in
              updatePlayerStatus v
          | returned (None, v) =>
              let v := set_selectedSquare
                         (if isOwnPiece piece v then Some square else None)
                         v in
              let v := renderBoard v in
              if JS.truthy (selectedSquare v)
              then highlightPossibleMoves square v
              else v
          | thrown =>
              (* the exception ends the handler: nothing was written *)
              v
          end
    | None =>
        if isOwnPiece piece v then
          let v := set_selectedSquare (Some square) v in
          let v := renderBoard v in
          highlightPossibleMoves square v
        else v
    end.

(** The resign button: [confirmed] is the answer to the [confirm] box. *)
Definition resignClick (confirmed : bool) (v : View) : View :=
  if confirmed then updateGameStatus "resigned" v else v.

(** *** Server pushes *)

Definition on_game_joined (data_color : option string) (v : View) : View :=
  let v := set_playerColor data_color v in
  updatePlayerStatus v.

(** The [game_info] handler after its first [if]: colour, status, drawing
    and indicators. *)
Definition game_info_rest (data : GameInfo) (v : View) : View :=
  let v := if JS.truthy (info_color data)
           then set_playerColor (info_color data) v else v in
  let v := match info_status data with
           | Some status => if status =? "" then v
                            else updateGameStatus status v
           | None => v
           end in
  let v := renderBoard v in
  updatePlayerStatus v.

(** When [game.load] throws, the handler ends at its second line with
    nothing written. *)
Definition on_game_info (data : GameInfo) (v : View) : View :=
  match info_fen data with
  | Some fen =>
      if fen =? "" then game_info_rest data v
      else match load (game v) fen with
           | Some g' => game_info_rest data (set_game g' v)
           | None => v
           end
  | None => game_info_rest data v
  end.

(** When [game.load] throws, the handler ends at its first line with
    nothing written. *)
Definition on_move_made (data_fen : string) (v : View) : View :=
  match load (game v) data_fen with
  | Some g' =>
      let v := set_game g' v in
      let v := renderBoard v in
      let v := updateMovesList v in
      checkGameStatus v
  | None => v
  end.

Definition on_player_joined (v : View) : View :=
  let v := updateGameStatus "active" v in
  updatePlayerStatus v.

Definition on_player_disconnected (v : View) : View :=
  updateGameStatus "disconnected" v.

(** *** The page as a transition system *)

Inductive Event :=
| game_joined (data_color : option string)
| game_info (data : GameInfo)
| move_made (data_fen : string)
| player_joined
| player_disconnected
| click (square : string)
| resign (confirmed : bool).

(** A click reaches [handleSquareClick] through the listener of a rendered
    square; no listener exists for a square that is not on the page. *)
Definition handle (e : Event) (v : View) : View :=
  match e with
  | game_joined c => on_game_joined c v
  | game_info d => on_game_info d v
  | move_made f => on_move_made f v
  | player_joined => on_player_joined v
  | player_disconnected => on_player_disconnected v
  | click sq =>
      match querySelector sq (boardElement v) with
      | Some _ => handleSquareClick sq v
      | None => v
      end
  | resign c => resignClick c v
  end.

(** The state once the script has run to its end: a fresh engine, no
    colour, no selection, the join request sent.  The three texts are
    those of the served page. *)
Definition init (status white black : string) : View :=
  {| game := newChess; playerColor := None; selectedSquare := None;
     boardElement := []; gameStatus := status; whiteStatus := white;
     blackStatus := black; movesList := [];
     emitted := [join_game gameId] |}.

Definition run (events : list Event) (v : View) : View :=
  fold_left (fun v e => handle e v) events v.

(** States the page can be in. *)
Inductive reachable : View -> Prop :=
| reachable_init status white black : reachable (init status white black)
| reachable_step e v : reachable v -> reachable (handle e v).

(** *** Vocabulary of the properties below *)

(** The names of the squares in the order [renderBoard] appends them. *)
Definition squareNames (isFlipped : bool) : list string :=
  flat_map (fun rank => map (fun file => file ++ JS.number rank)
                            (files isFlipped))
           (ranks isFlipped).

(** The element drawn for square [sq] carries the class [c]. *)
Definition shows (c sq : string) (b : list SquareEl) : bool :=
  match querySelector sq b with
  | Some e => hasClass c e
  | None => false
  end.

(** No square is marked as a destination. *)
Definition unmarked (b : list SquareEl) : Prop :=
  Forall (fun e => hasClass "possible-move" e = false) b.

(** [v'] differs from [v] in what the page shows at most: the engine,
    the colour, the selection and the events sent are those of [v]. *)
Definition pageOnly (v v' : View) : Prop :=
  game v' = game v /\ playerColor v' = playerColor v /\
  selectedSquare v' = selectedSquare v /\ emitted v' = emitted v.

(** The selection invariant of the data model: a selection names a square
    holding a piece of the local colour, and the local player is to
    move. *)
Definition selection_ok (v : View) : Prop :=
  match selectedSquare v with
  | Some s => isOwnPiece (get (game v) s) v = true /\ isPlayersTurn v = true
  | None => True
  end.

(** The pushes that replace the colour or the position. *)
Definition replaces_state (e : Event) : bool :=
  match e with
  | game_joined _ | game_info _ | move_made _ => true
  | _ => false
  end.

End GameView.

Arguments View G : clear implicits.

(** ** A scripted rules engine

    An instance of [Chess] for running the controller on concrete games.  A
    position is its FEN string: [get], [turn] and [board] read the string as
    chess.js does.  Legal moves and terminal positions are not computed but
    looked up in a script that lists, for the few positions used below, what
    chess.js answers there; a move the script does not list is answered as
    chess.js 1.x answers a move it does not accept, with an exception, so
    the instance agrees with chess.js on the listed positions and squares
    only.  As in chess.js, [load] forgets the move history, and throws on a
    string that is no position. *)

Module Scripted.

Fixpoint splitOn (sep : ascii) (s : string) : list string :=
  match s with
  | EmptyString => [EmptyString]
  | String c rest =>
      if Ascii.eqb c sep then EmptyString :: splitOn sep rest
      else match splitOn sep rest with
           | w :: ws => String c w :: ws
           | [] => [String c EmptyString]
           end
  end.

Definition pieceOfLetter (c : ascii) : option Piece :=
  let white t := Some {| color := White; type := t |} in
  let black t := Some {| color := Black; type := t |} in
  match String c EmptyString with
  | "P" => white Pawn | "N" => white Knight | "B" => white Bishop
  | "R" => white Rook | "Q" => white Queen | "K" => white King
  | "p" => black Pawn | "n" => black Knight | "b" => black Bishop
  | "r" => black Rook | "q" => black Queen | "k" => black King
  | _ => None
  end.

(** One rank of the placement field: a digit stands for that many empty
    squares. *)
Fixpoint expandRank (s : string) : list (option Piece) :=
  match s with
  | EmptyString => []
  | String c rest =>
      let n := nat_of_ascii c in
      if (49 <=? n)%nat && (n <=? 56)%nat
      then repeat None (n - 48) ++ expandRank rest
      else pieceOfLetter c :: expandRank rest
  end.

Definition field (n : nat) (fen : string) : string :=
  nth n (splitOn " " fen) EmptyString.

(** Rank 8 first, file a first, as [board()] of chess.js. *)
Definition boardOf (fen : string) : list (list (option Piece)) :=
  map expandRank (splitOn "/" (field 0 fen)).

Definition pieceAt (fen square : string) : option Piece :=
  match square with
  | String f (String r EmptyString) =>
      let file := nat_of_ascii f in
      let rank := nat_of_ascii r in
      if (97 <=? file)%nat && (file <=? 104)%nat
         && (49 <=? rank)%nat && (rank <=? 56)%nat
      then nth (file - 97) (nth (56 - rank) (boardOf fen) []) None
      else None
  | _ => None
  end.

Definition sideToMove (fen : string) : Color :=
  if field 1 fen =? "b" then Black else White.

(** A line of the script: in [before], the piece on [s_from] may go to
    [s_to]; chess.js names the move [s_san] and the position becomes
    [after]. *)
Record Line := {
  before : string; s_from : string; s_to : string;
  s_san : string; after : string
}.

Definition start : string :=
  "rnbqkbnr/pppppppp/8/8/8/8/PPPPPPPP/RNBQKBNR w KQkq - 0 1".

(** After 1. Nf3. *)
Definition after_Nf3 : string :=
  "rnbqkbnr/pppppppp/8/8/8/5N2/PPPPPPPP/RNBQKB1R b KQkq - 1 1".

(** After 1. Nf3 Nf6. *)
Definition after_Nf3_Nf6 : string :=
  "rnbqkb1r/pppppppp/5n2/8/8/5N2/PPPPPPPP/RNBQKB1R w KQkq - 2 2".

(** After 1. f3 e5 2. g4: Black mates with the queen on h4. *)
Definition before_mate : string :=
  "rnbqkbnr/pppp1ppp/8/4p3/6P1/5P2/PPPPP2P/RNBQKBNR b KQkq - 0 2".

Definition mated : string :=
  "rnb1kbnr/pppp1ppp/8/4p3/6Pq/5P2/PPPPP2P/RNBQKBNR w KQkq - 1 3".

(** Black to move, king h8 not in check and without a move. *)
Definition stalemated : string :=
  "7k/5Q2/6K1/8/8/8/8/8 b - - 0 1".

Definition script : list Line := [
  (* the knights in the starting position *)
  {| before := start; s_from := "b1"; s_to := "a3"; s_san := "Na3";
     after := "rnbqkbnr/pppppppp/8/8/8/N7/PPPPPPPP/R1BQKBNR b KQkq - 1 1" |};
  {| before := start; s_from := "b1"; s_to := "c3"; s_san := "Nc3";
     after := "rnbqkbnr/pppppppp/8/8/8/2N5/PPPPPPPP/R1BQKBNR b KQkq - 1 1" |};
  {| before := start; s_from := "g1"; s_to := "f3"; s_san := "Nf3";
     after := after_Nf3 |};
  {| before := start; s_from := "g1"; s_to := "h3"; s_san := "Nh3";
     after := "rnbqkbnr/pppppppp/8/8/8/7N/PPPPPPPP/RNBQKB1R b KQkq - 1 1" |};
  (* the queen's knight after 1. Nf3 Nf6 *)
  {| before := after_Nf3_Nf6; s_from := "b1"; s_to := "a3"; s_san := "Na3";
     after := "rnbqkb1r/pppppppp/5n2/8/8/N4N2/PPPPPPPP/R1BQKB1R b KQkq - 3 2" |};
  {| before := after_Nf3_Nf6; s_from := "b1"; s_to := "c3"; s_san := "Nc3";
     after := "rnbqkb1r/pppppppp/5n2/8/8/2N2N2/PPPPPPPP/R1BQKB1R b KQkq - 3 2" |};
  (* the black queen after 1. f3 e5 2. g4 *)
  {| before := before_mate; s_from := "d8"; s_to := "e7"; s_san := "Qe7";
     after := "rnb1kbnr/ppppqppp/8/4p3/6P1/5P2/PPPPP2P/RNBQKBNR w KQkq - 1 3" |};
  {| before := before_mate; s_from := "d8"; s_to := "f6"; s_san := "Qf6";
     after := "rnb1kbnr/pppp1ppp/5q2/4p3/6P1/5P2/PPPPP2P/RNBQKBNR w KQkq - 1 3" |};
  {| before := before_mate; s_from := "d8"; s_to := "g5"; s_san := "Qg5";
     after := "rnb1kbnr/pppp1ppp/8/4p1q1/6P1/5P2/PPPPP2P/RNBQKBNR w KQkq - 1 3" |};
  {| before := before_mate; s_from := "d8"; s_to := "h4"; s_san := "Qh4#";
     after := mated |}
].

Definition checkmates : list string := [mated].
Definition stalemates : list string := [stalemated].
(** chess.js counts a stalemate among the draws. *)
Definition draws : list string := [stalemated].
Definition checks : list string := [mated].

Definition listed (l : list string) (fen : string) : bool :=
  existsb (String.eqb fen) l.

(** The engine instance: the position and the moves made since the last
    [load]. *)
Record Game := { position : string; played : list Move }.

Definition moveOf (l : Line) : Move :=
  {| san := s_san l; from := s_from l; to := s_to l |}.

Definition scripted_move (g : Game) (from to promotion : string)
  : MoveAnswer Game :=
  match find (fun l => (before l =? position g) && (s_from l =? from)
                         && (s_to l =? to)) script with
  | Some l => moved (moveOf l) {| position := after l;
                                  played := played g ++ [moveOf l] |}
  | None => throws
  end.

(** One rank of a placement field is made of the digits 1 to 8 and of
    piece letters, and fills eight squares. *)
Definition rankOk (s : string) : bool :=
  forallb (fun c => let n := nat_of_ascii c in
                    ((49 <=? n)%nat && (n <=? 56)%nat)
                    || match pieceOfLetter c with
                       | Some _ => true
                       | None => false
                       end)
          (list_ascii_of_string s)
  && (length (expandRank s) =? 8)%nat.

(** The strings [load] takes: six fields, a placement of eight ranks of
    eight squares, and [w] or [b] to move.  These are among the checks
    chess.js makes before it loads a string; the positions used below
    pass all of its checks. *)
Definition wellFormed (fen : string) : bool :=
  (length (splitOn " " fen) =? 6)%nat
  && (length (splitOn "/" (field 0 fen)) =? 8)%nat
  && forallb rankOk (splitOn "/" (field 0 fen))
  && ((field 1 fen =? "w") || (field 1 fen =? "b")).

Definition scripted_load (fen : string) : option Game :=
  if wellFormed fen then Some {| position := fen; played := [] |}
  else None.

Definition scripted_moves (g : Game) (square : string) : list Move :=
  map moveOf
      (filter (fun l => (before l =? position g) && (s_from l =? square))
              script).

#[export] Instance engine : Chess Game := {
  newChess := {| position := start; played := [] |};
  load _ fen := scripted_load fen;
  get g square := pieceAt (position g) square;
  turn g := sideToMove (position g);
  isGameOver g := listed checkmates (position g)
                  || listed stalemates (position g)
                  || listed draws (position g);
  isCheckmate g := listed checkmates (position g);
  isDraw g := listed draws (position g);
  isStalemate g := listed stalemates (position g);
  inCheck g := listed checks (position g);
  originalMove := scripted_move;
  fen := position;
  history := played;
  moves := scripted_moves;
  board g := boardOf (position g)
}.

End Scripted.

(** ** The lobby script

    The join box holds free text, so the strings of this script are kept as
    JavaScript has them, sequences of UTF-16 code units: [trim] is defined on
    code units. *)

Module Lobby.

Local Open Scope list_scope.

Definition jsstring := list N.

(** The code units of a literal of the script (written here in UTF-8; the
    literals use one-, two- and three-byte characters only). *)
Fixpoint lit (s : string) : jsstring :=
  match s with
  | EmptyString => []
  | String a rest =>
      let x := N_of_ascii a in
      if (x <? 128)%N then x :: lit rest
      else
        match rest with
        | EmptyString => []
        | String b rest' =>
            let y := (N_of_ascii b mod 64)%N in
            if (x <? 224)%N then ((x mod 32) * 64 + y)%N :: lit rest'
            else
              match rest' with
              | EmptyString => []
              | String c rest'' =>
                  let z := (N_of_ascii c mod 64)%N in
                  ((x mod 16) * 4096 + y * 64 + z)%N :: lit rest''
              end
        end
  end.

(** White space and line terminators, as [String.prototype.trim] strips
    them. *)
Definition isWhiteSpace (c : N) : bool :=
  existsb (N.eqb c)
    [9; 10; 11; 12; 13; 32; 160; 5760; 8192; 8193; 8194; 8195; 8196; 8197;
     8198; 8199; 8200; 8201; 8202; 8232; 8233; 8239; 8287; 12288; 65279]%N.

Fixpoint trimStart (s : jsstring) : jsstring :=
  match s with
  | c :: rest => if isWhiteSpace c then trimStart rest else s
  | [] => []
  end.

Definition trimEnd (s : jsstring) : jsstring :=
  rev (trimStart (rev s)).

Definition trim (s : jsstring) : jsstring :=
  trimEnd (trimStart s).

(** A string is truthy when it is not empty. *)
Definition truthy (s : jsstring) : bool :=
  match s with [] => false | _ :: _ => true end.

Definition quote : jsstring := [34%N].
Definition newline : jsstring := [10%N].

Inductive Emit := create_game.

(** What the script reads and writes: the join box, the link area, the
    address of the page, the alerts shown, the timers set with
    [setTimeout] (delay in milliseconds and the address the callback
    assigns) and the events sent. *)
Record Page := {
  gameIdInput_value : jsstring;
  gameLink_innerHTML : jsstring;
  gameLink_classList : list string;
  location_origin : jsstring;
  location_href : jsstring;
  alerts : list jsstring;
  timers : list (Z * jsstring);
  emitted : list Emit
}.

Definition set_location_href (url : jsstring) (p : Page) : Page :=
  {| gameIdInput_value := gameIdInput_value p;
     gameLink_innerHTML := gameLink_innerHTML p;
     gameLink_classList := gameLink_classList p;
     location_origin := location_origin p;
     location_href := url;
     alerts := alerts p; timers := timers p; emitted := emitted p |}.

Definition alert (message : jsstring) (p : Page) : Page :=
  {| gameIdInput_value := gameIdInput_value p;
     gameLink_innerHTML := gameLink_innerHTML p;
     gameLink_classList := gameLink_classList p;
     location_origin := location_origin p;
     location_href := location_href p;
     alerts := alerts p ++ [message];
     timers := timers p; emitted := emitted p |}.

Definition createGameClick (p : Page) : Page :=
  {| gameIdInput_value := gameIdInput_value p;
     gameLink_innerHTML := gameLink_innerHTML p;
     gameLink_classList := gameLink_classList p;
     location_origin := location_origin p;
     location_href := location_href p;
     alerts := alerts p; timers := timers p;
     emitted := emitted p ++ [create_game] |}.

Definition joinGameClick (p : Page) : Page :=
  let gameId := trim (gameIdInput_value p) in
  if truthy gameId then set_location_href (lit "/game/" ++ gameId) p
  else alert (lit "Введите ID игры") p.

(** The markup assigned to [gameLink.innerHTML]. *)
Definition linkMarkup (url : jsstring) : jsstring :=
  newline ++ lit "        <p>Игра создана! Поделитесь ссылкой:</p>"
    ++ newline ++ lit "        <a href=" ++ quote ++ url ++ quote
    ++ lit " target=" ++ quote ++ lit "_blank" ++ quote ++ lit ">"
    ++ url ++ lit "</a>" ++ newline ++ lit "    ".

Definition on_game_created (data_game_id : jsstring) (p : Page) : Page :=
  let url := location_origin p ++ lit "/game/" ++ data_game_id in
  {| gameIdInput_value := gameIdInput_value p;
     gameLink_innerHTML := linkMarkup url;
     gameLink_classList :=
       filter (fun c => negb (c =? "hidden")) (gameLink_classList p);
     location_origin := location_origin p;
     location_href := location_href p;
     alerts := alerts p;
     timers := timers p ++ [(2000, url)];
     emitted := emitted p |}.

Definition on_error (data_message : jsstring) (p : Page) : Page :=
  alert data_message p.

(** The first timer comes due: its callback assigns the address. *)
Definition timeout (p : Page) : Page :=
  match timers p with
  | (_, url) :: rest =>
      {| gameIdInput_value := gameIdInput_value p;
         gameLink_innerHTML := gameLink_innerHTML p;
         gameLink_classList := gameLink_classList p;
         location_origin := location_origin p;
         location_href := url;
         alerts := alerts p; timers := rest; emitted := emitted p |}
  | [] => p
  end.

(** The link area is shown unless it carries the class [hidden]. *)
Definition gameLink_visible (p : Page) : bool :=
  negb (existsb (String.eqb "hidden") (gameLink_classList p)).

End Lobby.

(** ** Concrete games

    Runs of the controller on the scripted engine, from the loaded page. *)

Module Play.

Import Scripted.

Definition gameId : string := "abc123".

Definition page : View Game := init gameId "Ожидание соперника..." "" "".

Definition nothing : GameInfo :=
  {| info_fen := None; info_color := None; info_status := None |}.

Definition with_fen (fen : string) : GameInfo :=
  {| info_fen := Some fen; info_color := None; info_status := None |}.

(** White has joined, the board is drawn, and White has picked up the
    king's knight. *)
Definition white_holds_g1 : View Game :=
  run gameId [game_joined (Some "white"); game_info nothing; click "g1"]
      page.

(** The same, after a push of the position in which that knight has
    already gone to f3 and Black is to move. *)
Definition white_holds_g1_stale : View Game :=
  handle gameId (move_made after_Nf3) white_holds_g1.

(** White has played 1. Nf3 on this page, the position after 1. Nf3 Nf6
    has come with a full game-info push, and White has picked up the
    queen's knight. *)
Definition white_holds_b1 : View Game :=
  run gameId [click "f3"; game_info (with_fen after_Nf3_Nf6); click "b1"]
      white_holds_g1.

(** Black has joined the game after 1. f3 e5 2. g4 and has picked up the
    queen. *)
Definition black_holds_d8 : View Game :=
  run gameId [game_joined (Some "black"); game_info (with_fen before_mate);
              click "d8"]
      page.

(** A page showing the stalemate position. *)
Definition stalemate_page : View Game :=
  run gameId [game_joined (Some "white"); game_info (with_fen stalemated)]
      page.

End Play.

(** ** Further vocabulary

    Terms for the properties of the drawing passes, of the move list and of
    the transition system that are stated at the end of the file. *)

Section GameViewTerms.

Context {G : Type} `{Chess G}.

(** The [div.piece] that [renderBoard] puts into a square, by what
    [game.get] answers for it. *)
Definition pieceChildren (piece : option Piece) : list string :=
  match piece with
  | Some p => ["piece piece-" ++ colorLetter (color p) ++ "-"
                 ++ typeLetter (type p)]
  | None => []
  end.

(** The test of the inner loop of [highlightCheck] on [board[rank][file]]:
    a king of the side to move. *)
Definition kingToMoveAt (g : G) (rank file : nat) : bool :=
  match nth_error (nth rank (board g) []) file with
  | Some (Some square) =>
      isKing (type square) && Color_eqb (color square) (turn g)
  | _ => false
  end.

(** The square name that loop builds for [board[rank][file]]. *)
Definition cellName (rank file : nat) : string :=
  JS.fromCharCode (97 + Z.of_nat file) ++ JS.number (8 - Z.of_nat rank).

(** The index pairs the two loops of [highlightCheck] run through. *)
Definition boardCells : list (nat * nat) :=
  list_prod (seq 0 8) (seq 0 8).

(** The text of one row of the move list. *)
Definition moveRow (moveNumber : Z) (whiteMove blackMove : string) : string :=
  JS.number moveNumber ++ ". " ++ whiteMove ++ " " ++ blackMove.

(** A [make_move] event of the game [gameId]. *)
Definition isMoveOf (gameId : string) (e : Emit) : Prop :=
  exists move fen, e = make_move gameId move fen.

(** The engine takes the string: [game.load] does not throw. *)
Definition takes (g : G) (fen : string) : bool :=
  match load g fen with
  | Some _ => true
  | None => false
  end.

(** The handler of the event reaches [game.load] with a string the
    engine refuses, and stops there. *)
Definition stopsAtLoad (e : Event) (v : View G) : bool :=
  match e with
  | move_made data_fen => negb (takes (game v) data_fen)
  | game_info data =>
      match info_fen data with
      | Some fen => negb (fen =? "") && negb (takes (game v) fen)
      | None => false
      end
  | _ => false
  end.

(** The three guards of [handleSquareClick] together. *)
Definition acceptsClicks (v : View G) : bool :=
  JS.truthy (playerColor v) && isPlayersTurn v && negb (isGameOver (game v)).

End GameViewTerms.

(** More concrete games on the scripted engine. *)

Module MorePlay.

Import Scripted Play.

(** White has joined and the board is drawn; nothing is selected. *)
Definition white_ready : View Game :=
  run gameId [game_joined (Some "white"); game_info nothing] page.

(** Black's page showing the position after the mate on h4, pushed by the
    server. *)
Definition black_sees_mate : View Game :=
  run gameId [game_joined (Some "black"); game_info (with_fen mated)] page.

End MorePlay.

(** * Properties of the game view controller *)

Section GameViewFacts.

Context {G : Type} `{Chess G}.
Variable gameId : string.

(** ** Class lists and the board *)

Lemma hasClass_classList_add (c c' : string) (e : SquareEl) :
  hasClass c (classList_add c' e) = hasClass c e || (c =? c').
Proof.
  unfold classList_add, hasClass; cbn [classList].
  destruct (existsb (String.eqb c') (classList e)) eqn:Hin.
  - destruct (String.eqb_spec c c') as [->|]; [|now rewrite orb_false_r].
    now rewrite Hin.
  - rewrite existsb_app; cbn. now rewrite orb_false_r.
Qed.

Lemma data_square_classList_add (c : string) (e : SquareEl) :
  data_square (classList_add c e) = data_square e.
Proof. reflexivity. Qed.

Lemma addClassAt_names (sq c : string) (b : list SquareEl) :
  map data_square (addClassAt sq c b) = map data_square b.
Proof.
  induction b as [|e b IH]; cbn; [reflexivity|].
  destruct (data_square e =? sq); cbn; [reflexivity|now rewrite IH].
Qed.

Lemma querySelector_addClassAt (sq c d : string) (b : list SquareEl) :
  querySelector d (addClassAt sq c b) =
  if sq =? d then option_map (classList_add c) (querySelector d b)
  else querySelector d b.
Proof.
  unfold querySelector.
  induction b as [|e b IH]; cbn.
  - now destruct (sq =? d).
  - destruct (String.eqb_spec (data_square e) sq) as [Hsq|Hsq]; cbn.
    + destruct (String.eqb_spec (data_square e) d) as [Hd|Hd].
      * rewrite <- Hsq, Hd, String.eqb_refl. reflexivity.
      * destruct (String.eqb_spec sq d); [congruence|reflexivity].
    + destruct (String.eqb_spec (data_square e) d) as [Hd|Hd].
      * destruct (String.eqb_spec sq d); [congruence|reflexivity].
      * exact IH.
Qed.

Lemma querySelector_names (d : string) (b : list SquareEl) :
  In d (map data_square b) -> querySelector d b <> None.
Proof.
  unfold querySelector. intros Hin Hnone.
  apply in_map_iff in Hin as (e & <- & He).
  apply (find_none _ _ Hnone) in He. now rewrite String.eqb_refl in He.
Qed.

Lemma present_names (d : string) (b : list SquareEl) :
  match querySelector d b with Some _ => true | None => false end
  = existsb (String.eqb d) (map data_square b).
Proof.
  unfold querySelector.
  induction b as [|e b IH]; cbn [find map existsb]; [reflexivity|].
  rewrite (String.eqb_sym d).
  destruct (data_square e =? d); [reflexivity|exact IH].
Qed.

(** Adding a class to one square: what each square then shows. *)
Lemma shows_addClassAt (c d sq c' : string) (b : list SquareEl) :
  shows c d (addClassAt sq c' b) =
  shows c d b
  || ((sq =? d) && (c =? c')
      && match querySelector d b with Some _ => true | None => false end).
Proof.
  unfold shows. rewrite querySelector_addClassAt.
  destruct (sq =? d); cbn [andb option_map].
  - destruct (querySelector d b); cbn [option_map].
    + rewrite hasClass_classList_add. now rewrite andb_true_r.
    + now rewrite andb_false_r.
  - now rewrite orb_false_r.
Qed.

Lemma present_addClassAt (d sq c : string) (b : list SquareEl) :
  match querySelector d (addClassAt sq c b) with
  | Some _ => true | None => false
  end
  = match querySelector d b with Some _ => true | None => false end.
Proof.
  rewrite querySelector_addClassAt.
  destruct (sq =? d), (querySelector d b); reflexivity.
Qed.

Lemma unmarked_addClassAt (sq c : string) (b : list SquareEl) :
  c <> "possible-move" -> unmarked b -> unmarked (addClassAt sq c b).
Proof.
  intros Hc. unfold unmarked.
  induction b as [|e b IH]; cbn; intros Hb; [constructor|].
  inversion Hb as [|? ? He Hrest]; subst.
  destruct (data_square e =? sq).
  - constructor; [|assumption].
    rewrite hasClass_classList_add, He; cbn [orb].
    apply String.eqb_neq. congruence.
  - constructor; [assumption|now apply IH].
Qed.

Lemma unmarked_shows (d : string) (b : list SquareEl) :
  unmarked b -> shows "possible-move" d b = false.
Proof.
  unfold unmarked, shows, querySelector. intros Hb.
  destruct (find _ b) as [e|] eqn:Hfind; [|reflexivity].
  apply find_some in Hfind as [Hin _].
  now apply (proj1 (Forall_forall _ _) Hb).
Qed.

(** A loop that keeps a property of the board at every turn keeps it. *)
Lemma fold_left_keeps {A B : Type} (P : A -> Prop) (f : A -> B -> A)
      (l : list B) (a : A) :
  (forall a x, P a -> P (f a x)) -> P a -> P (fold_left f l a).
Proof.
  intros Hf. revert a. induction l as [|x l IH]; cbn; intros a Ha;
    [assumption|]. apply IH, Hf, Ha.
Qed.

(** The destination marks after the loop of [highlightPossibleMoves]. *)
Lemma shows_marks (d : string) (ms : list Move) (b : list SquareEl) :
  shows "possible-move" d
        (fold_left (fun b move => addClassAt (to move) "possible-move" b)
                   ms b)
  = shows "possible-move" d b
    || (existsb (String.eqb d) (map to ms)
        && match querySelector d b with Some _ => true | None => false end).
Proof.
  revert b. induction ms as [|m ms IH]; intros b; cbn.
  - now rewrite orb_false_r.
  - rewrite IH, shows_addClassAt, present_addClassAt, String.eqb_refl.
    rewrite (String.eqb_sym d (to m)).
    destruct (shows "possible-move" d b), (to m =? d),
      (existsb (String.eqb d) (map to ms)), (querySelector d b);
      reflexivity.
Qed.

(** ** What each procedure leaves alone *)

Lemma pageOnly_refl (v : View G) : pageOnly v v.
Proof. repeat split. Qed.

Lemma pageOnly_trans (v1 v2 v3 : View G) :
  pageOnly v1 v2 -> pageOnly v2 v3 -> pageOnly v1 v3.
Proof.
  unfold pageOnly. intros (? & ? & ? & ?) (? & ? & ? & ?).
  repeat split; congruence.
Qed.

Lemma updateGameStatus_pageOnly (status : string) (v : View G) :
  pageOnly v (updateGameStatus status v).
Proof.
  unfold updateGameStatus.
  destruct (statusText (game v) status); repeat split.
Qed.

Lemma checkGameStatus_pageOnly (v : View G) :
  pageOnly v (checkGameStatus v).
Proof.
  unfold checkGameStatus.
  destruct (isCheckmate (game v)); [apply updateGameStatus_pageOnly|].
  destruct (isDraw (game v)); [apply updateGameStatus_pageOnly|].
  destruct (isStalemate (game v)); [apply updateGameStatus_pageOnly|].
  apply pageOnly_refl.
Qed.

Lemma updatePlayerStatus_pageOnly (v : View G) :
  pageOnly v (updatePlayerStatus v).
Proof.
  unfold updatePlayerStatus.
  destruct (negb (JS.truthy (playerColor v))); [apply pageOnly_refl|].
  destruct (JS.strict_eq (playerColor v) (Some "white")); cbn;
    destruct (turn (game v)); repeat split.
Qed.

Lemma updatePlayerStatus_keeps (v : View G) :
  movesList (updatePlayerStatus v) = movesList v /\
  gameStatus (updatePlayerStatus v) = gameStatus v.
Proof.
  unfold updatePlayerStatus.
  destruct (negb (JS.truthy (playerColor v))); [now split|].
  destruct (JS.strict_eq (playerColor v) (Some "white"));
    cbn [game set_whiteStatus set_blackStatus];
    destruct (turn (game v)); now split.
Qed.

(** No [case] of the [switch] matches the status [resigned]. *)
Lemma updateGameStatus_resigned (v : View G) :
  updateGameStatus "resigned" v = v.
Proof. reflexivity. Qed.

Lemma updateMovesList_pageOnly (v : View G) :
  pageOnly v (updateMovesList v).
Proof. repeat split. Qed.

Lemma highlightLastMove_pageOnly (v : View G) :
  pageOnly v (highlightLastMove v).
Proof.
  unfold highlightLastMove. destruct (rev (history (game v))); repeat split.
Qed.

Lemma highlightCheck_pageOnly (v : View G) :
  pageOnly v (highlightCheck v).
Proof.
  unfold highlightCheck. destruct (inCheck (game v)); repeat split.
Qed.

Lemma renderBoard_pageOnly (v : View G) : pageOnly v (renderBoard v).
Proof.
  unfold renderBoard.
  eapply pageOnly_trans; [|apply highlightCheck_pageOnly].
  eapply pageOnly_trans; [|apply highlightLastMove_pageOnly].
  repeat split.
Qed.

Lemma highlightPossibleMoves_pageOnly (square : string) (v : View G) :
  pageOnly v (highlightPossibleMoves square v).
Proof. repeat split. Qed.

(** The status line, the player indicators and the move list are not
    touched by drawing the board. *)
Lemma renderBoard_texts (v : View G) :
  gameStatus (renderBoard v) = gameStatus v /\
  whiteStatus (renderBoard v) = whiteStatus v /\
  blackStatus (renderBoard v) = blackStatus v /\
  movesList (renderBoard v) = movesList v.
Proof.
  unfold renderBoard, highlightCheck, highlightLastMove. cbn.
  destruct (rev (history (game v))); cbn;
    destruct (inCheck (game v)); repeat split.
Qed.

(** ** The board after [renderBoard] *)

Lemma squareElement_name (v : View G) (rank : Z) (file : string) :
  data_square (squareElement v rank file) = file ++ JS.number rank.
Proof.
  unfold squareElement.
  destruct (get (game v) (file ++ JS.number rank));
    destruct (JS.strict_eq (selectedSquare v) (Some (file ++ JS.number rank)));
    reflexivity.
Qed.

Lemma squareElement_unmarked (v : View G) (rank : Z) (file : string) :
  hasClass "possible-move" (squareElement v rank file) = false.
Proof.
  unfold squareElement.
  destruct (get (game v) (file ++ JS.number rank));
    destruct (JS.strict_eq (selectedSquare v) (Some (file ++ JS.number rank)));
    destruct (Z.eqb (Z.rem (rank + JS.charCodeAt0 file - 96) 2) 0);
    reflexivity.
Qed.

(** The two highlighting passes only add the classes [last-move] and
    [check]: they keep every property of the board that adding a class
    other than [possible-move] keeps. *)
Lemma highlights_keep (P : list SquareEl -> Prop) :
  (forall sq c b, c <> "possible-move" -> P b -> P (addClassAt sq c b)) ->
  forall (v : View G) (squares : list SquareEl),
    P squares ->
    P (boardElement
         (highlightCheck (highlightLastMove (set_boardElement squares v)))).
Proof.
  intros Hadd v squares Hsq.
  assert (Hlast : P (boardElement
                       (highlightLastMove (set_boardElement squares v)))).
  { unfold highlightLastMove. cbn [game set_boardElement boardElement].
    destruct (rev (history (game v))) as [|lastMove ?];
      cbn [set_boardElement boardElement]; [assumption|].
    apply Hadd; [discriminate|]. apply Hadd; [discriminate|assumption]. }
  unfold highlightCheck.
  destruct (inCheck _); [|assumption]. cbn [boardElement set_boardElement].
  apply (fold_left_keeps P); [|assumption].
  intros b rank Hb. apply (fold_left_keeps P); [|assumption].
  intros b' file Hb'. unfold checkCell.
  destruct (nth_error _ file) as [[square|]|]; try assumption.
  destruct (isKing (type square) && Color_eqb (color square) _);
    [|assumption].
  apply Hadd; [discriminate|assumption].
Qed.

(** The squares come in the order of the two nested [forEach] loops, and
    the highlighting passes keep that order. *)
Lemma renderBoard_names (v : View G) :
  map data_square (boardElement (renderBoard v)) =
  squareNames (JS.strict_eq (playerColor v) (Some "black")).
Proof.
  unfold renderBoard. set (flipped := JS.strict_eq _ _).
  apply (highlights_keep (fun b => map data_square b = squareNames flipped)).
  - intros sq c b _ Hb. now rewrite addClassAt_names.
  - unfold squareNames.
    induction (ranks flipped) as [|rank rs IH]; cbn [flat_map map];
      [reflexivity|].
    rewrite map_app, IH, map_map. f_equal.
    apply map_ext. intros file. apply squareElement_name.
Qed.

(** A fresh board carries no destination mark. *)
Lemma renderBoard_unmarked (v : View G) :
  unmarked (boardElement (renderBoard v)).
Proof.
  unfold renderBoard. apply (highlights_keep unmarked).
  - intros sq c b Hc Hb. now apply unmarked_addClassAt.
  - apply Forall_forall. intros e He.
    apply in_flat_map in He as (rank & _ & He).
    apply in_map_iff in He as (file & <- & _).
    apply squareElement_unmarked.
Qed.

(** ** Orientation of the board *)

(** C2.  The order in which [renderBoard] draws the squares depends on
    the colour as follows.  For the colour [black] the first square drawn
    is a8 and the last is h1; for every other colour the first square is
    a1, the last is h8, and a8 is the 57th.  So a8 is never drawn last,
    and for White it is not drawn first: the orientation the
    specification describes is not the one the loops produce. *)
Theorem renderBoard_corner_squares (v : View G) :
  let names := map data_square (boardElement (renderBoard v)) in
  length names = 64%nat /\
  if JS.strict_eq (playerColor v) (Some "black")
  then nth_error names 0 = Some "a8" /\ nth_error names 63 = Some "h1"
  else nth_error names 0 = Some "a1" /\ nth_error names 56 = Some "a8"
       /\ nth_error names 63 = Some "h8".
Proof.
  cbv zeta. rewrite renderBoard_names.
  destruct (JS.strict_eq (playerColor v) (Some "black"));
    vm_compute; repeat split.
Qed.

(** ** Terminal status *)

Lemma updateGameStatus_text (status text : string) (v : View G) :
  statusText (game v) status = Some text ->
  gameStatus (updateGameStatus status v) = text.
Proof. unfold updateGameStatus. now intros ->. Qed.

(** C10.  [checkGameStatus] asks for checkmate, then for a draw, then
    for stalemate.  On a stalemate position (which is no checkmate) the
    label written is the draw label whenever the engine also counts the
    position as drawn; the stalemate label is written only when it does
    not. *)
Theorem stalemate_label_only_without_draw (v : View G) :
  isCheckmate (game v) = false ->
  isStalemate (game v) = true ->
  gameStatus (checkGameStatus v) =
  if isDraw (game v) then "Ничья" else "Пат".
Proof.
  intros Hmate Hstale. unfold checkGameStatus. rewrite Hmate, Hstale.
  destruct (isDraw (game v)); now apply updateGameStatus_text.
Qed.

(** The sibling path: a pushed move ends with [checkGameStatus], so a
    pushed checkmate is announced. *)
Lemma move_made_announces_checkmate (fen' : string) (g' : G)
      (v : View G) :
  load (game v) fen' = Some g' ->
  isCheckmate g' = true ->
  statusText g' "checkmate"
  = Some (gameStatus (on_move_made fen' v)).
Proof.
  intros Hload Hmate. unfold on_move_made. rewrite Hload. cbv zeta.
  set (v1 := updateMovesList (renderBoard (set_game _ v))).
  assert (Hg : game v1 = g').
  { unfold v1. cbn [game updateMovesList set_movesList].
    now rewrite (proj1 (renderBoard_pageOnly _)). }
  unfold checkGameStatus. rewrite Hg, Hmate.
  unfold updateGameStatus. rewrite Hg.
  unfold statusText. cbn [String.eqb Ascii.eqb Bool.eqb]. reflexivity.
Qed.

(** ** The resign button *)

(** C6.  The [switch] of [updateGameStatus] has no case for [resigned]:
    a confirmed resignation writes nothing, and the whole state, status
    line included, stays as it was. *)
Theorem resignClick_changes_nothing (confirmed : bool) (v : View G) :
  resignClick confirmed v = v /\ statusText (game v) "resigned" = None.
Proof.
  unfold resignClick. rewrite updateGameStatus_resigned.
  now destruct confirmed.
Qed.

(** ** Clicks on a square *)

(** Enters [handleSquareClick] past its three guards and past the test of
    the selection, in a state where a square is selected. *)
Ltac pass_guards Hcolor Hturn Hover Hsel Hne :=
  unfold handleSquareClick;
  rewrite Hcolor, Hturn, Hover, Hsel; cbn [negb];
  apply String.eqb_neq in Hne; rewrite Hne.

(** The guards at the top of [handleSquareClick]: a colour is assigned,
    the local player is to move, and the game is not over. *)
Lemma handleSquareClick_ignored (square : string) (v : View G) :
  JS.truthy (playerColor v) && isPlayersTurn v
    && negb (isGameOver (game v)) = false ->
  handleSquareClick gameId square v = v.
Proof.
  unfold handleSquareClick.
  destruct (JS.truthy (playerColor v)); [|reflexivity].
  destruct (isPlayersTurn v); [|reflexivity].
  destruct (isGameOver (game v)); [reflexivity|discriminate].
Qed.

(** C4, as amended.  When a click is not ignored (a colour is assigned,
    the local player is to move, the game is not over) and the square
    clicked is the selected one, the selection is cleared, the board drawn
    afresh carries no destination mark, the position is the same and
    nothing is sent. *)
Theorem reclick_deselects (v : View G) (S : string) :
  JS.truthy (playerColor v) = true ->
  isPlayersTurn v = true ->
  isGameOver (game v) = false ->
  selectedSquare v = Some S ->
  S <> "" ->
  let v' := handleSquareClick gameId S v in
  selectedSquare v' = None /\
  unmarked (boardElement v') /\
  game v' = game v /\
  emitted v' = emitted v.
Proof.
  intros Hcolor Hturn Hover Hsel Hne. cbv zeta.
  pass_guards Hcolor Hturn Hover Hsel Hne. rewrite String.eqb_refl.
  destruct (renderBoard_pageOnly (set_selectedSquare None v))
    as (Hg & _ & Hs & He).
  rewrite Hg, Hs, He. repeat split. apply renderBoard_unmarked.
Qed.

(** A rejection that the engine reports with an exception: the handler
    ends inside the call of [game.move], before its [else] branch, and
    the whole state, selection and board included, stays as it was. *)
Lemma thrown_move_changes_nothing (v : View G) (S Q : string) :
  JS.truthy (playerColor v) = true ->
  isPlayersTurn v = true ->
  isGameOver (game v) = false ->
  selectedSquare v = Some S ->
  S <> "" ->
  Q <> S ->
  originalMove (game v) S Q "q" = throws ->
  handleSquareClick gameId Q v = v.
Proof.
  intros Hcolor Hturn Hover Hsel Hne HQ Hmove.
  pass_guards Hcolor Hturn Hover Hsel Hne.
  rewrite (proj2 (String.eqb_neq S Q)) by congruence.
  unfold game_move. now rewrite Hmove.
Qed.

(** The [else] branch of [handleSquareClick], which runs for an engine
    that reports a rejection with a falsy value: the selection becomes
    [Q] when [Q] holds a piece of the local colour and is cleared
    otherwise; the board shown is a fresh drawing for the new selection,
    on which exactly the destinations of the moves from [Q] are marked
    when a selection exists and nothing is marked otherwise; the position
    is unchanged and nothing is sent. *)
Lemma falsy_answer_reselects (v : View G) (S Q : string) :
  JS.truthy (playerColor v) = true ->
  isPlayersTurn v = true ->
  isGameOver (game v) = false ->
  selectedSquare v = Some S ->
  S <> "" ->
  Q <> S ->
  originalMove (game v) S Q "q" = falsy ->
  let v' := handleSquareClick gameId Q v in
  let selection := if isOwnPiece (get (game v) Q) v then Some Q else None in
  selectedSquare v' = selection /\
  boardElement v'
  = (let fresh :=
       boardElement (renderBoard (set_selectedSquare selection v)) in
     if JS.truthy selection
     then fold_left (fun b move => addClassAt (to move) "possible-move" b)
                    (moves (game v) Q) fresh
     else fresh) /\
  (forall d : string,
      shows "possible-move" d (boardElement v')
      = JS.truthy selection
        && existsb (String.eqb d) (map to (moves (game v) Q))
        && existsb (String.eqb d)
                   (squareNames (JS.strict_eq (playerColor v)
                                              (Some "black")))) /\
  game v' = game v /\
  emitted v' = emitted v.
Proof.
  intros Hcolor Hturn Hover Hsel Hne HQ Hmove. cbv zeta.
  pass_guards Hcolor Hturn Hover Hsel Hne.
  rewrite (proj2 (String.eqb_neq S Q)) by congruence.
  unfold game_move. rewrite Hmove.
  set (selection := if isOwnPiece _ v then Some Q else None).
  set (v1 := set_selectedSquare selection v).
  destruct (renderBoard_pageOnly v1) as (Hg & Hc & Hs & He).
  assert (Hpresent : forall d,
             match querySelector d (boardElement (renderBoard v1)) with
             | Some _ => true | None => false
             end
             = existsb (String.eqb d)
                       (squareNames (JS.strict_eq (playerColor v)
                                                  (Some "black")))).
  { intros d. rewrite present_names. f_equal. exact (renderBoard_names v1). }
  rewrite Hs. cbn [selectedSquare set_selectedSquare v1].
  destruct (JS.truthy selection) eqn:Htruthy.
  - unfold highlightPossibleMoves.
    cbn [selectedSquare boardElement game emitted set_boardElement].
    rewrite Hs, Hg, He. cbn [selectedSquare game emitted v1 set_selectedSquare].
    repeat split.
    intros d. rewrite shows_marks, Hpresent.
    rewrite (unmarked_shows d _ (renderBoard_unmarked v1)). reflexivity.
  - rewrite Hs, Hg, He. cbn [selectedSquare game emitted v1 set_selectedSquare].
    repeat split.
    intros d. apply unmarked_shows, renderBoard_unmarked.
Qed.

(** One row for every two entries of the history, and one more for an
    entry left over. *)
Lemma moveItems_length (history : list string) (i : Z) :
  length (moveItems i history) = Nat.div2 (S (length history)).
Proof.
  assert (Hboth : forall n (h : list string) (i : Z),
             (length h <= n)%nat ->
             length (moveItems i h) = Nat.div2 (S (length h))).
  { induction n as [|n IH]; intros h j Hn.
    - destruct h; [reflexivity|cbn in Hn; lia].
    - destruct h as [|whiteMove [|blackMove rest]]; try reflexivity.
      cbn [moveItems length]. rewrite IH by (cbn in Hn; lia). reflexivity. }
  now apply (Hboth (length history)).
Qed.

(** What the replaced [game.move] leaves behind on success. *)
Lemma game_move_accepted (v : View G) (S Q : string) (m : Move) (g' : G) :
  originalMove (game v) S Q "q" = moved m g' ->
  exists v1,
    game_move S Q "q" v = returned (Some m, v1) /\
    game v1 = g' /\ playerColor v1 = playerColor v /\
    selectedSquare v1 = selectedSquare v /\ emitted v1 = emitted v /\
    movesList v1 = movesList v.
Proof.
  intros Hmove. unfold game_move. rewrite Hmove.
  eexists. split; [reflexivity|].
  set (v0 := set_game g' v).
  destruct (updateGameStatus_pageOnly "active" v0) as (Hg & Hc & Hs & He).
  destruct (updatePlayerStatus_pageOnly (updateGameStatus "active" v0))
    as (Hg' & Hc' & Hs' & He').
  rewrite Hg', Hc', Hs', He', Hg, Hc, Hs, He. repeat split.
  unfold updatePlayerStatus, updateGameStatus.
  destruct (statusText (game v0) "active"); cbn;
    destruct (JS.truthy (playerColor v)); cbn; try reflexivity;
    destruct (JS.strict_eq (playerColor v) (Some "white")); cbn;
    destruct (turn g'); reflexivity.
Qed.

(** The tail of the accepted branch: the five calls after the selection
    is cleared. *)
Lemma accepted_tail (v : View G) :
  let v' := updatePlayerStatus
              (updateGameStatus "active"
                 (checkGameStatus (updateMovesList (renderBoard v)))) in
  pageOnly v v' /\
  movesList v' = moveItems 0 (map san (history (game v))) /\
  gameStatus v' = match turn (game v) with
                  | White => "Ход белых"
                  | Black => "Ход черных"
                  end.
Proof.
  cbv zeta.
  set (v1 := renderBoard v). set (v2 := updateMovesList v1).
  set (v3 := checkGameStatus v2). set (v4 := updateGameStatus "active" v3).
  assert (H1 : pageOnly v v1) by apply renderBoard_pageOnly.
  assert (H2 : pageOnly v v2)
    by (eapply pageOnly_trans; [exact H1|apply updateMovesList_pageOnly]).
  assert (H3 : pageOnly v v3)
    by (eapply pageOnly_trans; [exact H2|apply checkGameStatus_pageOnly]).
  assert (H4 : pageOnly v v4)
    by (eapply pageOnly_trans; [exact H3|apply updateGameStatus_pageOnly]).
  assert (Hm2 : movesList v2 = moveItems 0 (map san (history (game v)))).
  { unfold v2, updateMovesList. cbn [movesList set_movesList].
    now rewrite (proj1 H1). }
  assert (Hm3 : movesList v3 = movesList v2).
  { unfold v3, checkGameStatus, updateGameStatus.
    destruct (isCheckmate _); [now destruct (statusText _ _)|].
    destruct (isDraw _); [now destruct (statusText _ _)|].
    destruct (isStalemate _); [now destruct (statusText _ _)|reflexivity]. }
  assert (Hs4 : gameStatus v4 = match turn (game v) with
                                | White => "Ход белых"
                                | Black => "Ход черных"
                                end).
  { unfold v4. rewrite <- (proj1 H3).
    now apply updateGameStatus_text. }
  assert (Hm4 : movesList v4 = movesList v3).
  { unfold v4, updateGameStatus. now destruct (statusText _ _). }
  split; [eapply pageOnly_trans; [exact H4|apply updatePlayerStatus_pageOnly]|].
  destruct (updatePlayerStatus_keeps v4) as (-> & ->).
  split; [now rewrite Hm4, Hm3|exact Hs4].
Qed.

(** C3, as amended.  A click on [Q] while another square [S] is selected,
    answered by the engine with the move [m] and the new position [g']:
    the position becomes [g'], the selection is cleared, the move list is
    built anew from the history of [g'], one row for every two moves, and
    exactly one event is sent, a [make_move] with the notation of [m] and
    the position string of [g']. *)
Theorem accepted_move_effects (v : View G) (S Q : string) (m : Move)
        (g' : G) :
  JS.truthy (playerColor v) = true ->
  isPlayersTurn v = true ->
  isGameOver (game v) = false ->
  selectedSquare v = Some S ->
  S <> "" ->
  Q <> S ->
  originalMove (game v) S Q "q" = moved m g' ->
  let v' := handleSquareClick gameId Q v in
  game v' = g' /\
  selectedSquare v' = None /\
  movesList v' = moveItems 0 (map san (history g')) /\
  length (movesList v') = Nat.div2 (1 + length (history g')) /\
  emitted v' = (emitted v ++ [make_move gameId (san m) (fen g')])%list.
Proof.
  intros Hcolor Hturn Hover Hsel Hne HQ Hmove. cbv zeta.
  pass_guards Hcolor Hturn Hover Hsel Hne.
  rewrite (proj2 (String.eqb_neq S Q)) by congruence.
  destruct (game_move_accepted v S Q m g' Hmove)
    as (v1 & -> & Hg & _ & _ & He & _).
  set (v2 := set_selectedSquare None (socket_emit _ v1)).
  destruct (accepted_tail v2) as ((Hg' & _ & Hs' & He') & Hm' & _).
  rewrite Hg', Hs', He', Hm'.
  cbn [game selectedSquare emitted v2 set_selectedSquare socket_emit].
  rewrite Hg, He, moveItems_length, length_map. repeat split.
Qed.

(** After a move made on this page the status line names the side to
    move, whatever the engine says about the new position: the call of
    [updateGameStatus('active')] that follows [checkGameStatus] writes
    over a terminal label. *)
Lemma accepted_move_status (v : View G) (S Q : string) (m : Move)
      (g' : G) :
  JS.truthy (playerColor v) = true ->
  isPlayersTurn v = true ->
  isGameOver (game v) = false ->
  selectedSquare v = Some S ->
  S <> "" ->
  Q <> S ->
  originalMove (game v) S Q "q" = moved m g' ->
  gameStatus (handleSquareClick gameId Q v)
  = match turn g' with White => "Ход белых" | Black => "Ход черных" end.
Proof.
  intros Hcolor Hturn Hover Hsel Hne HQ Hmove.
  pass_guards Hcolor Hturn Hover Hsel Hne.
  rewrite (proj2 (String.eqb_neq S Q)) by congruence.
  destruct (game_move_accepted v S Q m g' Hmove)
    as (v1 & -> & Hg & _ & _ & He & _).
  set (v2 := set_selectedSquare None (socket_emit _ v1)).
  destruct (accepted_tail v2) as (_ & _ & Hst).
  rewrite Hst. cbn [game v2 set_selectedSquare socket_emit].
  now rewrite Hg.
Qed.

(** ** The selection invariant *)

Lemma selection_ok_cleared (v : View G) :
  selectedSquare v = None -> selection_ok v.
Proof. unfold selection_ok. now intros ->. Qed.

Lemma selection_ok_pageOnly (v v' : View G) :
  pageOnly v v' -> selection_ok v -> selection_ok v'.
Proof.
  unfold pageOnly, selection_ok, isOwnPiece, isPlayersTurn, playerLetter.
  intros (-> & -> & -> & _). exact (fun H => H).
Qed.

(** A first click on an own piece, as in the last branch of
    [handleSquareClick]. *)
Lemma selection_ok_pick (square : string) (v : View G) :
  isPlayersTurn v = true ->
  isOwnPiece (get (game v) square) v = true ->
  selection_ok
    (highlightPossibleMoves
       square (renderBoard (set_selectedSquare (Some square) v))).
Proof.
  intros Hturn Hown.
  apply (selection_ok_pageOnly (set_selectedSquare (Some square) v)).
  - eapply pageOnly_trans;
      [apply renderBoard_pageOnly|apply highlightPossibleMoves_pageOnly].
  - unfold selection_ok. cbn [selectedSquare set_selectedSquare].
    split; assumption.
Qed.

Lemma handleSquareClick_selection_ok (square : string) (v : View G) :
  selection_ok v -> selection_ok (handleSquareClick gameId square v).
Proof.
  intros Hok. unfold handleSquareClick.
  destruct (JS.truthy (playerColor v)); [|exact Hok].
  destruct (isPlayersTurn v) eqn:Hturn; [|exact Hok].
  destruct (isGameOver (game v)); [exact Hok|]. cbn [negb].
  destruct (selectedSquare v) as [selected|] eqn:Hsel.
  - destruct (selected =? "").
    { destruct (isOwnPiece (get (game v) square) v) eqn:Hown;
        [now apply selection_ok_pick|exact Hok]. }
    destruct (selected =? square).
    { apply selection_ok_cleared.
      now rewrite (proj1 (proj2 (proj2 (renderBoard_pageOnly _)))). }
    unfold game_move.
    destruct (originalMove (game v) selected square "q") as [m g'| |].
    + apply selection_ok_cleared.
      match goal with
      | |- selectedSquare (updatePlayerStatus
             (updateGameStatus "active"
                (checkGameStatus (updateMovesList (renderBoard ?w))))) = _ =>
          destruct (accepted_tail w) as ((_ & _ & -> & _) & _)
      end.
      reflexivity.
    + destruct (isOwnPiece (get (game v) square) v) eqn:Hown.
      * rewrite (proj1 (proj2 (proj2 (renderBoard_pageOnly _)))).
        cbn [selectedSquare set_selectedSquare].
        destruct (JS.truthy (Some square)).
        -- now apply selection_ok_pick.
        -- apply (selection_ok_pageOnly
                    (set_selectedSquare (Some square) v));
             [apply renderBoard_pageOnly|].
           unfold selection_ok. cbn [selectedSquare set_selectedSquare].
           split; assumption.
      * rewrite (proj1 (proj2 (proj2 (renderBoard_pageOnly _)))).
        cbn [selectedSquare set_selectedSquare JS.truthy].
        apply selection_ok_cleared.
        now rewrite (proj1 (proj2 (proj2 (renderBoard_pageOnly _)))).
    + exact Hok.
  - destruct (isOwnPiece (get (game v) square) v) eqn:Hown;
      [now apply selection_ok_pick|exact Hok].
Qed.

(** C9, as amended.  The selection invariant is kept by every click (on
    a square or on the resign button) and by the two pushes that only
    write the status line.  The three pushes that replace the colour or
    the position leave the selection as it is and are not covered. *)
Theorem selection_ok_kept (e : Event) (v : View G) :
  replaces_state e = false ->
  selection_ok v ->
  selection_ok (handle gameId e v).
Proof.
  intros He Hok. destruct e; try discriminate; cbn [handle].
  - apply (selection_ok_pageOnly v); [|exact Hok].
    unfold on_player_joined.
    eapply pageOnly_trans;
      [apply updateGameStatus_pageOnly|apply updatePlayerStatus_pageOnly].
  - apply (selection_ok_pageOnly v); [|exact Hok].
    apply updateGameStatus_pageOnly.
  - destruct (querySelector square (boardElement v)); [|exact Hok].
    now apply handleSquareClick_selection_ok.
  - unfold resignClick. rewrite updateGameStatus_resigned.
    now destruct confirmed.
Qed.

End GameViewFacts.


(** * Properties of the lobby script *)

Section LobbyFacts.

Import Lobby.
Local Open Scope list_scope.

(** ** Trimming *)

Lemma trimStart_split (s : jsstring) :
  exists ws, s = ws ++ trimStart s /\ forallb isWhiteSpace ws = true.
Proof.
  induction s as [|c s (ws & Hs & Hws)]; [now exists []|].
  cbn [trimStart]. destruct (isWhiteSpace c) eqn:Hc.
  - exists (c :: ws). cbn [forallb app]. rewrite Hc, Hws.
    split; [now f_equal|reflexivity].
  - now exists [].
Qed.

Lemma trimStart_head (s : jsstring) :
  match trimStart s with
  | c :: _ => isWhiteSpace c = false
  | [] => True
  end.
Proof.
  induction s as [|c s IH]; [exact I|].
  cbn [trimStart]. destruct (isWhiteSpace c) eqn:Hc; assumption.
Qed.

(** [trim] removes a run of white space at each end and nothing else:
    what is left neither starts nor ends with white space. *)
Lemma trim_spec (s : jsstring) :
  exists leading trailing,
    s = leading ++ trim s ++ trailing /\
    forallb isWhiteSpace leading = true /\
    forallb isWhiteSpace trailing = true /\
    match trim s with c :: _ => isWhiteSpace c = false | [] => True end /\
    match rev (trim s) with
    | c :: _ => isWhiteSpace c = false
    | [] => True
    end.
Proof.
  unfold trim, trimEnd.
  destruct (trimStart_split s) as (leading & Hs & Hleading).
  set (t := trimStart s) in *.
  destruct (trimStart_split (rev t)) as (ws & Ht & Hws).
  pose proof (trimStart_head (rev t)) as Hlast.
  pose proof (trimStart_head s) as Hfirst. fold t in Hfirst.
  set (u := trimStart (rev t)) in *.
  assert (Htu : t = rev u ++ rev ws).
  { rewrite <- rev_app_distr, <- Ht. now rewrite rev_involutive. }
  exists leading, (rev ws). repeat split.
  - now rewrite <- Htu.
  - exact Hleading.
  - rewrite forallb_forall in *. intros c Hc.
    apply Hws. now apply in_rev.
  - rewrite Htu in Hfirst. destruct (rev u); [exact I|exact Hfirst].
  - now rewrite rev_involutive.
Qed.

(** ** Joining a game *)

(** C8.  The join button trims the text of the box.  When something is
    left, the address becomes [/game/] followed by exactly that text,
    whatever it is, and nothing else changes; when nothing is left, one
    alert is shown, the address stays, and nothing else changes. *)
Theorem joinGame_trims_then_navigates_or_alerts (p : Page) :
  let p' := joinGameClick p in
  exists leading id trailing,
    gameIdInput_value p = leading ++ id ++ trailing /\
    forallb isWhiteSpace leading = true /\
    forallb isWhiteSpace trailing = true /\
    match id with c :: _ => isWhiteSpace c = false | [] => True end /\
    match rev id with c :: _ => isWhiteSpace c = false | [] => True end /\
    match id with
    | _ :: _ =>
        location_href p' = lit "/game/" ++ id /\ alerts p' = alerts p
    | [] =>
        location_href p' = location_href p /\
        alerts p' = alerts p ++ [lit "Введите ID игры"]
    end /\
    gameIdInput_value p' = gameIdInput_value p /\
    gameLink_innerHTML p' = gameLink_innerHTML p /\
    gameLink_classList p' = gameLink_classList p /\
    location_origin p' = location_origin p /\
    timers p' = timers p /\
    emitted p' = emitted p.
Proof.
  cbv zeta.
  destruct (trim_spec (gameIdInput_value p))
    as (leading & trailing & Hs & Hl & Ht & Hfirst & Hlast).
  exists leading, (trim (gameIdInput_value p)), trailing.
  unfold joinGameClick.
  destruct (trim (gameIdInput_value p)) as [|c id];
    cbn [truthy]; repeat split; assumption.
Qed.

(** ** A game was created *)

Lemma hidden_removed (classes : list string) :
  existsb (String.eqb "hidden")
          (filter (fun c => negb (String.eqb c "hidden")) classes) = false.
Proof.
  induction classes as [|c classes IH]; [reflexivity|].
  cbn [filter]. destruct (String.eqb_spec c "hidden") as [->|Hc];
    cbn [negb]; [exact IH|].
  cbn [existsb]. rewrite IH, orb_false_r.
  apply String.eqb_neq. congruence.
Qed.

(** C7.  On a create confirmation with identifier [g], the link area
    gets the markup of a link whose address and text are
    [origin/game/g], the area is shown, and one more timer is set: after
    2000 ms its callback assigns that same address, which happens as
    soon as the timers set before it have run.  Until then the address
    of the page is unchanged. *)
Theorem game_created_shows_link_and_schedules (p : Page) (g : jsstring) :
  let url := location_origin p ++ lit "/game/" ++ g in
  let p' := on_game_created g p in
  gameLink_innerHTML p' = linkMarkup url /\
  (exists head tail,
      linkMarkup url
      = head ++ lit "<a href=" ++ quote ++ url ++ quote
             ++ lit " target=" ++ quote ++ lit "_blank" ++ quote ++ lit ">"
             ++ url ++ lit "</a>" ++ tail) /\
  gameLink_visible p' = true /\
  timers p' = timers p ++ [(2000, url)] /\
  location_href p' = location_href p /\
  location_href (Nat.iter (S (length (timers p))) timeout p') = url.
Proof.
  cbv zeta. set (url := location_origin p ++ lit "/game/" ++ g).
  repeat split.
  - exists (newline ++ lit "        <p>Игра создана! Поделитесь ссылкой:</p>"
              ++ newline ++ lit "        "),
      (newline ++ lit "    ").
    unfold linkMarkup.
    change (lit "        <a href=") with (lit "        " ++ lit "<a href=").
    now rewrite <- !app_assoc.
  - unfold gameLink_visible, on_game_created. cbn [gameLink_classList].
    now rewrite hidden_removed.
  - unfold on_game_created.
    set (p' := {| gameIdInput_value := _ |}).
    assert (Hiter : forall pending q,
               timers q = pending ++ [(2000, url)] ->
               location_href (Nat.iter (S (length pending)) timeout q) = url).
    { induction pending as [|[d u] pending IH]; intros q Hq.
      - cbn. unfold timeout. now rewrite Hq.
      - cbn [length]. rewrite Nat.iter_succ_r. apply IH.
        unfold timeout. rewrite Hq. reflexivity. }
    now apply Hiter.
Qed.

End LobbyFacts.

(** * The controller on concrete games *)

Section ConcreteGames.

Import Scripted Play.

Lemma run_reachable {G : Type} `{Chess G} (gid : string)
      (events : list Event) (v : View G) :
  reachable gid v -> reachable gid (run gid events v).
Proof.
  revert v. induction events as [|e events IH]; cbn; intros v Hv;
    [assumption|]. apply IH. now constructor.
Qed.

Lemma page_reachable : reachable gameId page.
Proof. constructor. Qed.

(** ** Checkmate delivered on this page *)

(** C1.  Black, holding the queen on d8 after 1. f3 e5 2. g4, clicks h4.
    The engine accepts the move and reports checkmate, yet the status
    line names the side to move; [checkGameStatus] run once more on the
    resulting state would write the checkmate label. *)
Theorem local_checkmate_shows_turn_label :
  let v := handle gameId (click "h4") black_holds_d8 in
  reachable gameId v /\
  isCheckmate (game v) = true /\
  gameStatus v = "Ход белых" /\
  gameStatus (checkGameStatus v) = "Мат! Победили черные".
Proof.
  cbv zeta. split.
  - apply reachable_step. unfold black_holds_d8.
    apply run_reachable, page_reachable.
  - vm_compute. repeat split.
Qed.

(** ** Accepted moves *)

(** C3, the claim as stated fails.  White has played 1. Nf3 on this
    page (the move list shows one row), a game-info push has brought the
    position after 1. Nf3 Nf6, and White now plays Nc3.  The engine
    accepts the move; the move list still has one row, the new one in
    place of the old: no row was appended. *)
Lemma accepted_move_appends_no_row :
  let v := white_holds_b1 in
  let v' := handle gameId (click "c3") v in
  reachable gameId v /\
  selectedSquare v = Some "b1" /\
  originalMove (game v) "b1" "c3" "q"
  = moved {| san := "Nc3"; from := "b1"; to := "c3" |} (game v') /\
  movesList v = ["1. Nf3 "] /\
  movesList v' = ["1. Nc3 "] /\
  ~ (exists row, movesList v' = (movesList v ++ [row])%list).
Proof.
  cbv zeta. split; [|split; [|split; [|split; [|split]]]].
  - unfold white_holds_b1, white_holds_g1.
    apply run_reachable, run_reachable, page_reachable.
  - vm_compute. reflexivity.
  - vm_compute. reflexivity.
  - vm_compute. reflexivity.
  - vm_compute. reflexivity.
  - intros [row Hrow]. vm_compute in Hrow. discriminate Hrow.
Qed.

Lemma accepted_move_effects_witness :
  let v := white_holds_g1 in
  let v' := handleSquareClick gameId "f3" v in
  originalMove (game v) "g1" "f3" "q"
  = moved {| san := "Nf3"; from := "g1"; to := "f3" |} (game v') /\
  position (game v') = after_Nf3 /\
  selectedSquare v' = None /\
  movesList v' = ["1. Nf3 "] /\
  emitted v' = [join_game gameId; make_move gameId "Nf3" after_Nf3].
Proof.
  cbv zeta. split; [vm_compute; reflexivity|].
  pose (m := {| san := "Nf3"; from := "g1"; to := "f3" |}).
  pose (g' := {| position := after_Nf3; played := [m] |}).
  destruct (accepted_move_effects gameId white_holds_g1 "g1" "f3" m g')
    as (Hg & Hs & Hm & _ & He);
    [vm_compute; reflexivity|vm_compute; reflexivity
    |vm_compute; reflexivity|vm_compute; reflexivity|discriminate
    |discriminate|vm_compute; reflexivity|].
  rewrite Hg, Hs, Hm, He. vm_compute. repeat split.
Defined.

(** ** Clicking the selected square again *)

(** C4, the claim as stated fails.  White holds the knight on g1 when a
    push brings the position in which Black is to move.  The selection
    is still g1; a click on g1 is ignored and the selection stays. *)
Lemma reclick_ignored_when_not_to_move :
  let v := white_holds_g1_stale in
  reachable gameId v /\
  selectedSquare v = Some "g1" /\
  querySelector "g1" (boardElement v) <> None /\
  selectedSquare (handle gameId (click "g1") v) = Some "g1".
Proof.
  cbv zeta. split; [|split; [|split]].
  - apply reachable_step. unfold white_holds_g1.
    apply run_reachable, page_reachable.
  - vm_compute. reflexivity.
  - vm_compute. discriminate.
  - vm_compute. reflexivity.
Qed.

Lemma reclick_deselects_witness :
  let v := white_holds_g1 in
  let v' := handleSquareClick gameId "g1" v in
  selectedSquare v = Some "g1" /\
  selectedSquare v' = None /\
  unmarked (boardElement v') /\
  game v' = game v /\
  emitted v' = emitted v.
Proof.
  cbv zeta. split; [vm_compute; reflexivity|].
  apply (reclick_deselects gameId white_holds_g1 "g1");
    [vm_compute; reflexivity|vm_compute; reflexivity
    |vm_compute; reflexivity|vm_compute; reflexivity|discriminate].
Defined.

(** ** Rejected moves *)

(** C5.  White holds the knight on g1 and clicks b1, a square with a
    white piece.  The engine does not accept the move from g1 to b1 and,
    as the 1.x releases do, throws.  The handler ends there: the state
    is the one before the click, the selection is still g1 and not b1,
    and the board is not drawn again. *)
Theorem rejected_move_keeps_selection :
  let v := white_holds_g1 in
  let v' := handle gameId (click "b1") v in
  reachable gameId v /\
  selectedSquare v = Some "g1" /\
  isOwnPiece (get (game v) "b1") v = true /\
  originalMove (game v) "g1" "b1" "q" = throws /\
  v' = v /\
  selectedSquare v' = Some "g1".
Proof.
  cbv zeta. split; [|split; [|split; [|split; [|split]]]].
  - unfold white_holds_g1. apply run_reachable, page_reachable.
  - vm_compute. reflexivity.
  - vm_compute. reflexivity.
  - vm_compute. reflexivity.
  - vm_compute. reflexivity.
  - vm_compute. reflexivity.
Qed.

(** ** The selection invariant *)

(** C9, the claim as stated fails.  White holds the knight on g1, and
    the invariant holds.  A pushed move brings the position after
    1. Nf3: the selection is still g1, which is now empty, and Black is
    to move. *)
Lemma pushed_move_breaks_selection_ok :
  let v := white_holds_g1 in
  let v' := handle gameId (move_made after_Nf3) v in
  reachable gameId v /\
  selection_ok v /\
  selectedSquare v' = Some "g1" /\
  get (game v') "g1" = None /\
  turn (game v') = Black /\
  ~ selection_ok v'.
Proof.
  cbv zeta. split; [|split; [|split; [|split; [|split]]]].
  - unfold white_holds_g1. apply run_reachable, page_reachable.
  - vm_compute. split; reflexivity.
  - vm_compute. reflexivity.
  - vm_compute. reflexivity.
  - vm_compute. reflexivity.
  - vm_compute. intros [Hown _]. discriminate Hown.
Qed.

Lemma selection_ok_kept_witness :
  selection_ok white_holds_g1 /\
  selection_ok (handle gameId (click "b1") white_holds_g1) /\
  selectedSquare (handle gameId player_joined white_holds_g1)
  = Some "g1" /\
  selection_ok (handle gameId player_joined white_holds_g1) /\
  selectedSquare (handle gameId (click "g1") MorePlay.white_ready)
  = Some "g1" /\
  selection_ok (handle gameId (click "g1") MorePlay.white_ready).
Proof.
  assert (Hok : selection_ok white_holds_g1)
    by (vm_compute; split; reflexivity).
  assert (Hready : selection_ok MorePlay.white_ready) by exact I.
  split; [exact Hok|].
  split; [apply (selection_ok_kept gameId (click "b1") white_holds_g1);
          [reflexivity|exact Hok]|].
  split; [vm_compute; reflexivity|].
  split; [apply (selection_ok_kept gameId player_joined white_holds_g1);
          [reflexivity|exact Hok]|].
  split; [vm_compute; reflexivity|].
  apply (selection_ok_kept gameId (click "g1") MorePlay.white_ready);
    [reflexivity|exact Hready].
Defined.

(** ** Stalemate *)

Lemma stalemate_label_witness :
  isStalemate (game stalemate_page) = true /\
  isDraw (game stalemate_page) = true /\
  gameStatus (checkGameStatus stalemate_page) = "Ничья".
Proof.
  assert (Hdraw : isDraw (game stalemate_page) = true)
    by (vm_compute; reflexivity).
  split; [vm_compute; reflexivity|]. split; [exact Hdraw|].
  rewrite (stalemate_label_only_without_draw stalemate_page), Hdraw;
    [reflexivity|vm_compute; reflexivity|vm_compute; reflexivity].
Defined.

End ConcreteGames.

(** * Further properties of the game view controller *)

Section DrawingFacts.

Context {G : Type} `{Chess G}.

(** ** What one square element carries *)

(** The squares as the two nested loops create them, before the
    highlighting passes. *)
Lemma fresh_squares_names (v : View G) (flipped : bool) :
  map data_square
      (flat_map (fun rank => map (fun file => squareElement v rank file)
                                 (files flipped))
                (ranks flipped))
  = squareNames flipped.
Proof.
  unfold squareNames.
  induction (ranks flipped) as [|rank rs IH]; cbn [flat_map map];
    [reflexivity|].
  rewrite map_app, IH, map_map. f_equal.
  apply map_ext. intros file. apply squareElement_name.
Qed.

(** The classes of a fresh square: [square], one of [light] and [dark],
    and [selected] on the selected square. *)
Lemma squareElement_classes (c : string) (v : View G) (rank : Z)
      (file : string) :
  hasClass c (squareElement v rank file)
  = (c =? "square")
    || (c =? if Z.eqb (Z.rem (rank + JS.charCodeAt0 file - 96) 2) 0
             then "light" else "dark")
    || ((c =? "selected")
        && JS.strict_eq (selectedSquare v) (Some (file ++ JS.number rank))).
Proof.
  unfold squareElement.
  set (shade := if Z.eqb _ 0 then "light" else "dark").
  set (name := file ++ JS.number rank).
  set (el := {| data_square := name; classList := ["square"] |}).
  assert (Hel : hasClass c (classList_add shade el)
                = (c =? "square") || (c =? shade)).
  { rewrite hasClass_classList_add. unfold hasClass, el.
    cbn [classList existsb]. now rewrite orb_false_r. }
  assert (Hext : forall e e', classList e = classList e' ->
                              hasClass c e = hasClass c e')
    by (unfold hasClass; now intros e e' ->).
  destruct (JS.strict_eq (selectedSquare v) (Some name)).
  - rewrite andb_true_r.
    destruct (get (game v) name);
      [rewrite (Hext _ (classList_add "selected" (classList_add shade el)))
        by reflexivity|];
      now rewrite hasClass_classList_add, Hel.
  - rewrite andb_false_r, orb_false_r.
    destruct (get (game v) name);
      [rewrite (Hext _ (classList_add shade el)) by reflexivity|];
      exact Hel.
Qed.

Lemma squareElement_children (v : View G) (rank : Z) (file : string) :
  children (squareElement v rank file)
  = pieceChildren (get (game v) (file ++ JS.number rank)).
Proof.
  unfold squareElement, pieceChildren.
  destruct (get (game v) (file ++ JS.number rank));
    destruct (JS.strict_eq (selectedSquare v) _); reflexivity.
Qed.

Lemma squareElement_data (v : View G) (rank : Z) (file : string) :
  data_file (squareElement v rank file) = file /\
  data_rank (squareElement v rank file) = JS.number rank.
Proof.
  unfold squareElement.
  destruct (get (game v) (file ++ JS.number rank));
    destruct (JS.strict_eq (selectedSquare v) _); split; reflexivity.
Qed.

(** ** Properties of every element that the passes keep *)

(** A property of single elements that adding [last-move] or [check]
    keeps holds of every element of the finished board as soon as it
    holds of the fresh squares. *)
Lemma highlights_keep_each (P : SquareEl -> Prop) :
  (forall c e, c = "last-move" \/ c = "check" ->
               P e -> P (classList_add c e)) ->
  forall (v : View G) (squares : list SquareEl),
    Forall P squares ->
    Forall P (boardElement
                (highlightCheck
                   (highlightLastMove (set_boardElement squares v)))).
Proof.
  intros Hadd v squares Hsq.
  assert (Hat : forall sq c b,
             c = "last-move" \/ c = "check" ->
             Forall P b -> Forall P (addClassAt sq c b)).
  { intros sq c b Hc. induction b as [|e b IH]; cbn [addClassAt];
      intros Hb; [constructor|].
    inversion Hb as [|? ? He Hrest]; subst.
    destruct (data_square e =? sq); constructor; auto. }
  assert (Hlast : Forall P (boardElement
                              (highlightLastMove
                                 (set_boardElement squares v)))).
  { unfold highlightLastMove. cbn [game set_boardElement boardElement].
    destruct (rev (history (game v))) as [|lastMove ?];
      cbn [set_boardElement boardElement]; [assumption|].
    apply Hat; [now left|]. apply Hat; [now left|assumption]. }
  unfold highlightCheck.
  destruct (inCheck _); [|assumption]. cbn [boardElement set_boardElement].
  apply (fold_left_keeps (Forall P)); [|assumption].
  intros b rank Hb. apply (fold_left_keeps (Forall P)); [|assumption].
  intros b' file Hb'. unfold checkCell.
  destruct (nth_error _ file) as [[square|]|]; try assumption.
  destruct (isKing (type square) && Color_eqb (color square) _);
    [|assumption].
  apply Hat; [now right|assumption].
Qed.

(** X1.  The board shows the position: after [renderBoard], every square
    element holds one piece element, classed by the colour and type that
    [game.get] answers for the square, when the engine reports a piece
    there, and no child otherwise. *)
Theorem renderBoard_shows_pieces (v : View G) :
  Forall (fun e => children e
                   = pieceChildren (get (game v) (data_square e)))
         (boardElement (renderBoard v)).
Proof.
  unfold renderBoard. apply highlights_keep_each.
  - intros c e _ He. exact He.
  - apply Forall_forall. intros e He.
    apply in_flat_map in He as (rank & _ & He).
    apply in_map_iff in He as (file & <- & _).
    now rewrite squareElement_children, squareElement_name.
Qed.

(** X2.  Shades and data attributes: every square element drawn by
    [renderBoard] is that of a rank from 1 to 8 and a file from a to h,
    carries them in its data attributes, has the class [square], and has
    exactly one of the classes [light] and [dark]: [light] when rank plus
    file index (a is 1) is even. *)
Theorem renderBoard_shades (v : View G) :
  Forall (fun e =>
            exists rank file,
              In rank [1; 2; 3; 4; 5; 6; 7; 8] /\
              In file ["a"; "b"; "c"; "d"; "e"; "f"; "g"; "h"] /\
              data_square e = file ++ JS.number rank /\
              data_file e = file /\
              data_rank e = JS.number rank /\
              hasClass "square" e = true /\
              hasClass "light" e
              = Z.even (rank + (JS.charCodeAt0 file - 96)) /\
              hasClass "dark" e = negb (hasClass "light" e))
         (boardElement (renderBoard v)).
Proof.
  unfold renderBoard. apply highlights_keep_each.
  - intros c e Hc (rank & file & Hr & Hf & Hsq & Hfile & Hrank & Hs & Hl & Hd).
    exists rank, file. rewrite !hasClass_classList_add, Hs, Hd, <- Hl.
    repeat split; try assumption;
      destruct Hc as [-> | ->]; cbn [String.eqb Ascii.eqb Bool.eqb];
      now rewrite !orb_false_r.
  - apply Forall_forall. intros e He.
    apply in_flat_map in He as (rank & Hr & He).
    apply in_map_iff in He as (file & <- & Hf).
    exists rank, file.
    assert (Hr' : In rank [1; 2; 3; 4; 5; 6; 7; 8]).
    { destruct (JS.strict_eq _ _); [|exact Hr].
      now apply in_rev in Hr. }
    assert (Hf' : In file ["a"; "b"; "c"; "d"; "e"; "f"; "g"; "h"]).
    { destruct (JS.strict_eq _ _); [|exact Hf].
      apply in_rev in Hf. cbn in Hf. cbn. tauto. }
    destruct (squareElement_data v rank file) as (Hdf & Hdr).
    rewrite !squareElement_classes, squareElement_name.
    assert (Heven : Z.eqb (Z.rem (rank + JS.charCodeAt0 file - 96) 2) 0
                    = Z.even (rank + (JS.charCodeAt0 file - 96))).
    { cbn in Hr', Hf'.
      destruct Hr' as [<-|[<-|[<-|[<-|[<-|[<-|[<-|[<-|[]]]]]]]]];
        destruct Hf' as [<-|[<-|[<-|[<-|[<-|[<-|[<-|[<-|[]]]]]]]]];
        reflexivity. }
    rewrite Heven.
    repeat split; try assumption;
      destruct (Z.even _); cbn [String.eqb Ascii.eqb Bool.eqb andb orb negb];
      reflexivity.
Qed.

(** X3.  The selection mark: after [renderBoard], a square element has
    the class [selected] exactly when its square is the selected one. *)
Theorem renderBoard_marks_selection (v : View G) :
  Forall (fun e => hasClass "selected" e
                   = JS.strict_eq (selectedSquare v) (Some (data_square e)))
         (boardElement (renderBoard v)).
Proof.
  unfold renderBoard. apply highlights_keep_each.
  - intros c e Hc He. rewrite hasClass_classList_add, He.
    destruct Hc as [-> | ->]; cbn [String.eqb Ascii.eqb Bool.eqb];
      now rewrite orb_false_r.
  - apply Forall_forall. intros e He.
    apply in_flat_map in He as (rank & _ & He).
    apply in_map_iff in He as (file & <- & _).
    rewrite squareElement_classes, squareElement_name.
    destruct (Z.eqb _ 0); cbn [String.eqb Ascii.eqb Bool.eqb orb andb];
      reflexivity.
Qed.

(** ** The two highlighting passes *)

(** The fresh squares as a list, for the lemmas about the passes. *)
Lemma fresh_squares_present (v : View G) (flipped : bool) (d : string) :
  match querySelector d
          (flat_map (fun rank => map (fun file => squareElement v rank file)
                                     (files flipped))
                    (ranks flipped)) with
  | Some _ => true
  | None => false
  end
  = existsb (String.eqb d) (squareNames flipped).
Proof. now rewrite present_names, fresh_squares_names. Qed.

Lemma fresh_squares_lack (c : string) (v : View G) (flipped : bool)
      (d : string) :
  c = "last-move" \/ c = "check" ->
  shows c d
        (flat_map (fun rank => map (fun file => squareElement v rank file)
                                   (files flipped))
                  (ranks flipped))
  = false.
Proof.
  intros Hc. unfold shows, querySelector.
  destruct (find _ _) as [e|] eqn:Hfind; [|reflexivity].
  apply find_some in Hfind as [He _].
  apply in_flat_map in He as (rank & _ & He).
  apply in_map_iff in He as (file & <- & _).
  rewrite squareElement_classes.
  destruct Hc as [-> | ->]; destruct (Z.eqb _ 0);
    cbn [String.eqb Ascii.eqb Bool.eqb orb andb]; reflexivity.
Qed.

(** Adding another class changes nothing about a class. *)
Lemma shows_addClassAt_other (c d sq c' : string) (b : list SquareEl) :
  c <> c' -> shows c d (addClassAt sq c' b) = shows c d b.
Proof.
  intros Hc. rewrite shows_addClassAt.
  rewrite (proj2 (String.eqb_neq c c') Hc).
  now rewrite andb_false_r, orb_false_r.
Qed.

Lemma checkCell_as_test (g : G) (b : list SquareEl) (rank file : nat) :
  checkCell g b rank file
  = if kingToMoveAt g rank file
    then addClassAt (cellName rank file) "check" b
    else b.
Proof.
  unfold checkCell, kingToMoveAt, cellName.
  destruct (nth_error _ file) as [[square|]|]; reflexivity.
Qed.

(** Two nested loops run through the pairs of their indices. *)
Lemma fold_left_nested {A B C : Type} (f : A -> B -> C -> A)
      (xs : list B) (ys : list C) (a : A) :
  fold_left (fun a x => fold_left (fun a y => f a x y) ys a) xs a
  = fold_left (fun a xy => f a (fst xy) (snd xy)) (list_prod xs ys) a.
Proof.
  revert a. induction xs as [|x xs IH]; intros a; cbn [fold_left list_prod];
    [reflexivity|].
  rewrite fold_left_app, IH. f_equal.
  clear. revert a. induction ys as [|y ys IH]; intros a;
    cbn [fold_left map fst snd]; [reflexivity|apply IH].
Qed.

(** A loop that adds the class [c] to the squares passing a test. *)
Lemma shows_after_loop {X : Type} (test : X -> bool) (name : X -> string)
      (c d : string) (xs : list X) (b : list SquareEl) :
  shows c d (fold_left (fun b x => if test x then addClassAt (name x) c b
                                   else b) xs b)
  = shows c d b
    || (existsb (fun x => test x && (name x =? d)) xs
        && match querySelector d b with Some _ => true | None => false end).
Proof.
  revert b. induction xs as [|x xs IH]; intros b; cbn [fold_left existsb].
  - now rewrite orb_false_r.
  - rewrite IH. destruct (test x); cbn [andb orb]; [|reflexivity].
    rewrite shows_addClassAt, present_addClassAt, String.eqb_refl.
    destruct (shows c d b), (name x =? d), (existsb _ xs),
      (querySelector d b); reflexivity.
Qed.

Lemma present_after_loop {X : Type} (test : X -> bool) (name : X -> string)
      (c d : string) (xs : list X) (b : list SquareEl) :
  match querySelector d
          (fold_left (fun b x => if test x then addClassAt (name x) c b
                                 else b) xs b) with
  | Some _ => true | None => false
  end
  = match querySelector d b with Some _ => true | None => false end.
Proof.
  revert b. induction xs as [|x xs IH]; intros b; cbn [fold_left];
    [reflexivity|].
  rewrite IH. destruct (test x); [apply present_addClassAt|reflexivity].
Qed.

(** The board after [highlightCheck], as one loop over the cells. *)
Lemma highlightCheck_board (v : View G) :
  boardElement (highlightCheck v)
  = if inCheck (game v)
    then fold_left (fun b cell =>
                      if kingToMoveAt (game v) (fst cell) (snd cell)
                      then addClassAt (cellName (fst cell) (snd cell))
                                      "check" b
                      else b)
                   boardCells (boardElement v)
    else boardElement v.
Proof.
  unfold highlightCheck, boardCells.
  destruct (inCheck (game v)); [|reflexivity].
  cbn [boardElement set_boardElement].
  rewrite (fold_left_nested
             (fun b rank file => checkCell (game v) b rank file)).
  generalize (boardElement v).
  induction (list_prod (seq 0 8) (seq 0 8)) as [|cell cells IH];
    intros b; cbn [fold_left]; [reflexivity|].
  now rewrite checkCell_as_test, IH.
Qed.

(** The board after [highlightLastMove]. *)
Lemma highlightLastMove_board (v : View G) :
  boardElement (highlightLastMove v)
  = match rev (history (game v)) with
    | lastMove :: _ =>
        addClassAt (to lastMove) "last-move"
                   (addClassAt (from lastMove) "last-move" (boardElement v))
    | [] => boardElement v
    end.
Proof.
  unfold highlightLastMove. now destruct (rev (history (game v))).
Qed.

Lemma highlightLastMove_game (v : View G) :
  game (highlightLastMove v) = game v.
Proof. apply highlightLastMove_pageOnly. Qed.

(** X4.  The last move: after [renderBoard], a square shows the class
    [last-move] exactly when the engine's history is not empty and the
    square is the origin or the destination of its last entry (and is a
    square of the board). *)
Theorem renderBoard_marks_last_move (v : View G) (d : string) :
  shows "last-move" d (boardElement (renderBoard v))
  = match rev (history (game v)) with
    | lastMove :: _ =>
        ((from lastMove =? d) || (to lastMove =? d))
        && existsb (String.eqb d)
                   (squareNames (JS.strict_eq (playerColor v) (Some "black")))
    | [] => false
    end.
Proof.
  unfold renderBoard. set (flipped := JS.strict_eq _ _).
  set (squares := flat_map _ _).
  rewrite highlightCheck_board, highlightLastMove_game.
  cbn [game set_boardElement].
  assert (Hcheck : forall b,
             shows "last-move" d
                   (if inCheck (game v)
                    then fold_left
                           (fun b cell =>
                              if kingToMoveAt (game v) (fst cell) (snd cell)
                              then addClassAt (cellName (fst cell) (snd cell))
                                              "check" b
                              else b) boardCells b
                    else b)
             = shows "last-move" d b).
  { intros b. destruct (inCheck (game v)); [|reflexivity].
    apply (fold_left_keeps
             (fun b' => shows "last-move" d b' = shows "last-move" d b));
      [|reflexivity].
    intros b' cell Hb'. destruct (kingToMoveAt _ _ _); [|exact Hb'].
    rewrite shows_addClassAt_other by discriminate. exact Hb'. }
  rewrite Hcheck, highlightLastMove_board.
  cbn [game boardElement set_boardElement].
  destruct (rev (history (game v))) as [|lastMove ?].
  - apply fresh_squares_lack. now left.
  - rewrite !shows_addClassAt, present_addClassAt, String.eqb_refl.
    unfold squares. rewrite fresh_squares_present, fresh_squares_lack
      by now left.
    destruct (from lastMove =? d), (to lastMove =? d), (existsb _ _);
      reflexivity.
Qed.

(** X5.  Check: after [renderBoard], a square shows the class [check]
    exactly when the engine reports check and [board()] has a king of the
    side to move on that square (and it is a square of the board). *)
Theorem renderBoard_marks_check (v : View G) (d : string) :
  shows "check" d (boardElement (renderBoard v))
  = inCheck (game v)
    && existsb (fun cell => kingToMoveAt (game v) (fst cell) (snd cell)
                            && (cellName (fst cell) (snd cell) =? d))
               boardCells
    && existsb (String.eqb d)
               (squareNames (JS.strict_eq (playerColor v) (Some "black"))).
Proof.
  unfold renderBoard. set (flipped := JS.strict_eq _ _).
  set (squares := flat_map _ _).
  rewrite highlightCheck_board, highlightLastMove_game.
  cbn [game set_boardElement].
  assert (Hlast : shows "check" d
                        (boardElement
                           (highlightLastMove (set_boardElement squares v)))
                  = false
                  /\ match querySelector d
                             (boardElement
                                (highlightLastMove
                                   (set_boardElement squares v))) with
                     | Some _ => true | None => false
                     end
                     = existsb (String.eqb d) (squareNames flipped)).
  { rewrite highlightLastMove_board. cbn [game boardElement set_boardElement].
    destruct (rev (history (game v))) as [|lastMove ?].
    - split; [apply fresh_squares_lack; now right
             |apply fresh_squares_present].
    - rewrite !shows_addClassAt_other by discriminate.
      rewrite !present_addClassAt.
      split; [apply fresh_squares_lack; now right
             |apply fresh_squares_present]. }
  destruct Hlast as (Hnone & Hpresent).
  destruct (inCheck (game v)); cbn [andb]; [|exact Hnone].
  rewrite shows_after_loop, Hnone, Hpresent. reflexivity.
Qed.

(** ** The sixty-four squares *)

Lemma squareNames_distinct (flipped : bool) :
  length (squareNames flipped) = 64%nat /\
  NoDup (squareNames flipped) /\
  forall d, In d (squareNames flipped) <-> In d (squareNames false).
Proof.
  split; [now destruct flipped|]. split.
  - assert (Hfix : nodup string_dec (squareNames flipped)
                   = squareNames flipped)
      by (destruct flipped; vm_compute; reflexivity).
    rewrite <- Hfix. apply NoDup_nodup.
  - assert (Hsub : forall l1 l2 : list string,
               forallb (fun x => existsb (String.eqb x) l2) l1 = true ->
               incl l1 l2).
    { intros l1 l2 Hall x Hx.
      apply (proj1 (forallb_forall _ _) Hall) in Hx.
      apply existsb_exists in Hx as (y & Hy & Hxy).
      apply String.eqb_eq in Hxy. now subst. }
    intros d. split; apply Hsub; destruct flipped; vm_compute; reflexivity.
Qed.

(** X6.  Whatever the position, the selection and the colour,
    [renderBoard] draws sixty-four squares with pairwise different names,
    and two drawings always show the same squares: only their order can
    differ. *)
Theorem renderBoard_draws_each_square_once (v w : View G) :
  let names := map data_square (boardElement (renderBoard v)) in
  length names = 64%nat /\
  NoDup names /\
  forall d, In d names
            <-> In d (map data_square (boardElement (renderBoard w))).
Proof.
  cbv zeta. rewrite !renderBoard_names.
  destruct (squareNames_distinct
              (JS.strict_eq (playerColor v) (Some "black")))
    as (Hlen & Hnodup & Hv).
  destruct (squareNames_distinct
              (JS.strict_eq (playerColor w) (Some "black")))
    as (_ & _ & Hw).
  repeat split; try assumption; intros Hd.
  - now apply Hw, Hv.
  - now apply Hv, Hw.
Qed.

End DrawingFacts.

(** * Further properties of the clicks and the pushes *)

Section TransitionFacts.

Context {G : Type} `{Chess G}.
Variable gameId : string.

(** ** Clicks *)

(** X7.  While clicks are not accepted (no colour assigned, or not the
    local player's turn, or the game over), no sequence of clicks on
    squares changes anything: position, selection, page and events sent
    stay as they are. *)
Theorem clicks_ignored (v : View G) (squares : list string) :
  acceptsClicks v = false ->
  run gameId (map click squares) v = v.
Proof.
  intros Hguard. unfold run.
  induction squares as [|sq squares IH]; cbn [map fold_left handle];
    [reflexivity|].
  destruct (querySelector sq (boardElement v)); [|exact IH].
  now rewrite (handleSquareClick_ignored gameId sq v Hguard).
Qed.

(** X8.  The first click: with clicks accepted and nothing selected, a
    click on a square holding a piece of the local colour selects the
    square and draws the board afresh with exactly the destinations of
    the engine's moves from that square marked; a click on any other
    square changes nothing.  Neither touches the position or sends an
    event. *)
Theorem first_click (v : View G) (Q : string) :
  acceptsClicks v = true ->
  selectedSquare v = None ->
  let v' := handleSquareClick gameId Q v in
  if isOwnPiece (get (game v) Q) v
  then selectedSquare v' = Some Q /\
       boardElement v'
       = fold_left (fun b move => addClassAt (to move) "possible-move" b)
                   (moves (game v) Q)
                   (boardElement
                      (renderBoard (set_selectedSquare (Some Q) v))) /\
       (forall d : string,
           shows "possible-move" d (boardElement v')
           = existsb (String.eqb d) (map to (moves (game v) Q))
             && existsb (String.eqb d)
                        (squareNames (JS.strict_eq (playerColor v)
                                                   (Some "black")))) /\
       game v' = game v /\
       emitted v' = emitted v
  else v' = v.
Proof.
  unfold acceptsClicks. intros Hguard Hsel. cbv zeta.
  apply andb_prop in Hguard as (Hguard & Hover).
  apply andb_prop in Hguard as (Hcolor & Hturn).
  apply negb_true_iff in Hover.
  unfold handleSquareClick. rewrite Hcolor, Hturn, Hover, Hsel. cbn [negb].
  destruct (isOwnPiece (get (game v) Q) v); [|reflexivity].
  set (v1 := set_selectedSquare (Some Q) v).
  destruct (renderBoard_pageOnly v1) as (Hg & _ & Hs & He).
  unfold highlightPossibleMoves.
  cbn [selectedSquare boardElement game emitted set_boardElement].
  rewrite Hs, Hg, He. repeat split.
  intros d. rewrite shows_marks, present_names.
  rewrite (unmarked_shows d _ (renderBoard_unmarked v1)).
  rewrite (renderBoard_names v1). reflexivity.
Qed.

(** What a click does to the position and to the events sent. *)
Lemma handleSquareClick_effect (sq : string) (v : View G) :
  let v' := handleSquareClick gameId sq v in
  (game v' = game v /\ emitted v' = emitted v) \/
  (exists selected m,
      acceptsClicks v = true /\
      selectedSquare v = Some selected /\
      originalMove (game v) selected sq "q" = moved m (game v') /\
      emitted v'
      = (emitted v ++ [make_move gameId (san m) (fen (game v'))])%list).
Proof.
  cbv zeta. unfold handleSquareClick, acceptsClicks.
  destruct (JS.truthy (playerColor v)); [|now left].
  destruct (isPlayersTurn v); [|now left].
  destruct (isGameOver (game v)); [now left|]. cbn [negb andb].
  assert (Hpick : forall w : View G,
             game (highlightPossibleMoves sq (renderBoard
                     (set_selectedSquare (Some sq) w))) = game w /\
             emitted (highlightPossibleMoves sq (renderBoard
                        (set_selectedSquare (Some sq) w))) = emitted w).
  { intros w.
    destruct (renderBoard_pageOnly (set_selectedSquare (Some sq) w))
      as (Hg & _ & _ & He).
    unfold highlightPossibleMoves. cbn [game emitted set_boardElement].
    now rewrite Hg, He. }
  destruct (selectedSquare v) as [selected|] eqn:Hsel.
  - destruct (selected =? "").
    { destruct (isOwnPiece _ v); [left; apply Hpick|now left]. }
    destruct (selected =? sq).
    { left. destruct (renderBoard_pageOnly (set_selectedSquare None v))
        as (Hg & _ & _ & He). now rewrite Hg, He. }
    destruct (originalMove (game v) selected sq "q")
      as [m g'| |] eqn:Hmove.
    + right. exists selected, m.
      destruct (game_move_accepted v selected sq m g' Hmove)
        as (v1 & -> & Hg & _ & _ & He & _).
      set (v2 := set_selectedSquare None (socket_emit _ v1)).
      destruct (accepted_tail v2) as ((Hg' & _ & _ & He') & _).
      rewrite Hg', He'.
      cbn [game emitted v2 set_selectedSquare socket_emit].
      rewrite Hg, He. repeat split. exact Hmove.
    + left. unfold game_move. rewrite Hmove.
      set (v1 := set_selectedSquare _ v).
      destruct (renderBoard_pageOnly v1) as (Hg & _ & Hs & He).
      destruct (JS.truthy (selectedSquare (renderBoard v1)));
        [unfold highlightPossibleMoves;
         cbn [game emitted set_boardElement]|];
        now rewrite Hg, He.
    + left. unfold game_move. now rewrite Hmove.
  - destruct (isOwnPiece _ v); [left; apply Hpick|now left].
Qed.

(** ** What the two loading handlers do once the position is settled *)

(** The procedures that write texts leave the board as it is. *)
Lemma updateGameStatus_board (status : string) (v : View G) :
  boardElement (updateGameStatus status v) = boardElement v.
Proof. unfold updateGameStatus. now destruct (statusText _ _). Qed.

Lemma checkGameStatus_board (v : View G) :
  boardElement (checkGameStatus v) = boardElement v.
Proof.
  unfold checkGameStatus.
  destruct (isCheckmate _); [apply updateGameStatus_board|].
  destruct (isDraw _); [apply updateGameStatus_board|].
  destruct (isStalemate _); [apply updateGameStatus_board|reflexivity].
Qed.

Lemma updatePlayerStatus_board (v : View G) :
  boardElement (updatePlayerStatus v) = boardElement v.
Proof.
  unfold updatePlayerStatus.
  destruct (negb (JS.truthy (playerColor v))); [reflexivity|].
  destruct (JS.strict_eq (playerColor v) (Some "white"));
    cbn [game set_whiteStatus set_blackStatus];
    now destruct (turn (game v)).
Qed.

(** The view a [game_info] push draws: colour and status taken. *)
Lemma game_info_rest_drawn (data : GameInfo) (v : View G) :
  exists w,
    game_info_rest data v = updatePlayerStatus (renderBoard w) /\
    game w = game v /\
    playerColor w = (if JS.truthy (info_color data) then info_color data
                     else playerColor v) /\
    selectedSquare w = selectedSquare v /\
    emitted w = emitted v /\
    movesList w = movesList v /\
    gameStatus w
    = match info_status data with
      | Some status =>
          if status =? "" then gameStatus v
          else match statusText (game v) status with
               | Some text => text
               | None => gameStatus v
               end
      | None => gameStatus v
      end.
Proof.
  unfold game_info_rest. cbv zeta.
  set (v2 := if JS.truthy (info_color data)
             then set_playerColor (info_color data) v else v).
  assert (H2 : game v2 = game v /\
               playerColor v2 = (if JS.truthy (info_color data)
                                 then info_color data else playerColor v) /\
               selectedSquare v2 = selectedSquare v /\
               emitted v2 = emitted v /\ movesList v2 = movesList v /\
               gameStatus v2 = gameStatus v).
  { unfold v2. destruct (JS.truthy (info_color data)); now repeat split. }
  destruct H2 as (Hg & Hc & Hs & He & Hm & Ht).
  eexists. split; [reflexivity|].
  destruct (info_status data) as [status|]; [|now repeat split].
  destruct (status =? ""); [now repeat split|].
  unfold updateGameStatus. rewrite Hg.
  destruct (statusText (game v) status);
    cbn [game playerColor selectedSquare emitted movesList gameStatus
         set_gameStatus];
    now repeat split.
Qed.

Lemma game_info_rest_model (data : GameInfo) (v : View G) :
  let r := game_info_rest data v in
  game r = game v /\
  playerColor r = (if JS.truthy (info_color data) then info_color data
                   else playerColor v) /\
  selectedSquare r = selectedSquare v /\
  emitted r = emitted v.
Proof.
  cbv zeta.
  destruct (game_info_rest_drawn data v)
    as (w & -> & Hg & Hc & Hs & He & _).
  destruct (updatePlayerStatus_pageOnly (renderBoard w))
    as (-> & -> & -> & ->).
  destruct (renderBoard_pageOnly w) as (-> & -> & -> & ->).
  now repeat split.
Qed.

Lemma game_info_rest_board (data : GameInfo) (v : View G) :
  let r := game_info_rest data v in
  unmarked (boardElement r) /\
  map data_square (boardElement r)
  = squareNames (JS.strict_eq (playerColor r) (Some "black")).
Proof.
  cbv zeta.
  destruct (game_info_rest_drawn data v) as (w & -> & _).
  destruct (updatePlayerStatus_pageOnly (renderBoard w))
    as (_ & -> & _ & _).
  destruct (renderBoard_pageOnly w) as (_ & -> & _ & _).
  rewrite updatePlayerStatus_board.
  split; [apply renderBoard_unmarked|apply renderBoard_names].
Qed.

(** The view after a pushed move whose position the engine took. *)
Lemma move_made_loaded (g' : G) (v : View G) :
  let r := checkGameStatus
             (updateMovesList (renderBoard (set_game g' v))) in
  game r = g' /\
  playerColor r = playerColor v /\
  selectedSquare r = selectedSquare v /\
  emitted r = emitted v /\
  boardElement r = boardElement (renderBoard (set_game g' v)).
Proof.
  cbv zeta. set (v1 := set_game g' v).
  destruct (checkGameStatus_pageOnly (updateMovesList (renderBoard v1)))
    as (-> & -> & -> & ->).
  rewrite checkGameStatus_board.
  cbn [game playerColor selectedSquare emitted boardElement
       updateMovesList set_movesList].
  destruct (renderBoard_pageOnly v1) as (-> & -> & -> & ->).
  now repeat split.
Qed.

(** A handler that stops at [game.load] has written nothing. *)
Lemma stopsAtLoad_unchanged (e : Event) (v : View G) :
  stopsAtLoad e v = true -> handle gameId e v = v.
Proof.
  unfold stopsAtLoad, takes.
  destruct e as [c|data|data_fen| | |sq|confirmed]; try discriminate;
    cbn [handle].
  - unfold on_game_info. destruct (info_fen data) as [fen|];
      [|discriminate].
    destruct (fen =? ""); [discriminate|].
    now destruct (load (game v) fen).
  - unfold on_move_made. now destruct (load (game v) data_fen).
Qed.

(** ** Position and events sent *)

(** X9.  What each event does to the position and to the events sent.
    A click either leaves both alone or is a move of the engine from the
    selected square to the clicked one, asked with promotion to a queen
    and accepted, and then exactly one [make_move] is sent with the
    move's notation and the new position string.  A pushed move loads
    its position; a game-info push loads its position when it carries a
    non-empty one; a position the engine refuses leaves the old one;
    neither push sends anything.  Every other event leaves both alone. *)
Theorem event_effect_on_position_and_outbox (e : Event) (v : View G) :
  let v' := handle gameId e v in
  match e with
  | click sq =>
      (game v' = game v /\ emitted v' = emitted v) \/
      (exists selected m,
          selectedSquare v = Some selected /\
          originalMove (game v) selected sq "q" = moved m (game v') /\
          emitted v'
          = (emitted v ++ [make_move gameId (san m) (fen (game v'))])%list)
  | move_made data_fen =>
      game v' = match load (game v) data_fen with
                | Some g' => g'
                | None => game v
                end /\
      emitted v' = emitted v
  | game_info data =>
      game v' = match info_fen data with
                | Some fen =>
                    if fen =? "" then game v
                    else match load (game v) fen with
                         | Some g' => g'
                         | None => game v
                         end
                | None => game v
                end /\
      emitted v' = emitted v
  | _ => game v' = game v /\ emitted v' = emitted v
  end.
Proof.
  cbv zeta. destruct e as [c|data|data_fen| | |sq|confirmed]; cbn [handle].
  - unfold on_game_joined.
    destruct (updatePlayerStatus_pageOnly (set_playerColor c v))
      as (-> & _ & _ & ->). now split.
  - unfold on_game_info.
    destruct (info_fen data) as [fen|];
      [destruct (fen =? "");
       [|destruct (load (game v) fen) as [g'|]; [|now split]]|];
      match goal with
      | |- context [game_info_rest data ?w] =>
          destruct (game_info_rest_model data w) as (-> & _ & _ & ->)
      end; now split.
  - unfold on_move_made. destruct (load (game v) data_fen) as [g'|];
      [|now split].
    destruct (move_made_loaded g' v) as (-> & _ & _ & -> & _). now split.
  - unfold on_player_joined.
    assert (H2 : pageOnly v (updatePlayerStatus (updateGameStatus "active" v))).
    { eapply pageOnly_trans;
        [apply updateGameStatus_pageOnly|apply updatePlayerStatus_pageOnly]. }
    destruct H2 as (-> & _ & _ & ->). now split.
  - destruct (updateGameStatus_pageOnly "disconnected" v)
      as (Hg & _ & _ & He). unfold on_player_disconnected. now split.
  - destruct (querySelector sq (boardElement v)); [|now left].
    destruct (handleSquareClick_effect sq v)
      as [Hsame|(selected & m & _ & Hsel & Hmove & He)]; [now left|].
    right. now exists selected, m.
  - unfold resignClick. rewrite updateGameStatus_resigned.
    now destruct confirmed.
Qed.

(** ** Pushes *)

(** What each event other than a click does to the board. *)
Lemma pushes_keep_board (e : Event) (v : View G) :
  match e with
  | click _ => True
  | game_info _ | move_made _ =>
      handle gameId e v = v \/
      map data_square (boardElement (handle gameId e v))
      = squareNames (JS.strict_eq (playerColor (handle gameId e v))
                                  (Some "black"))
  | _ => boardElement (handle gameId e v) = boardElement v
  end.
Proof.
  destruct e as [c|data|data_fen| | |sq|confirmed]; cbn [handle].
  - unfold on_game_joined. now rewrite updatePlayerStatus_board.
  - unfold on_game_info.
    destruct (info_fen data) as [fen|];
      [destruct (fen =? "");
       [|destruct (load (game v) fen) as [g'|]; [|now left]]|];
      right; apply game_info_rest_board.
  - unfold on_move_made. destruct (load (game v) data_fen) as [g'|];
      [|now left]. right.
    destruct (move_made_loaded g' v) as (_ & -> & _ & _ & ->).
    apply (renderBoard_names (set_game g' v)).
  - unfold on_player_joined.
    now rewrite updatePlayerStatus_board, updateGameStatus_board.
  - unfold on_player_disconnected. apply updateGameStatus_board.
  - exact I.
  - unfold resignClick. rewrite updateGameStatus_resigned.
    now destruct confirmed.
Qed.

(** X10.  No event other than a click on a square touches the selection.
    A push that carries a position (game info, pushed move) and whose
    position the engine takes draws the board afresh, so that no
    destination mark is left even when a selection stays; when the
    engine refuses the position the handler stops at [game.load] and the
    whole state stays as it was.  The join confirmation, the two
    opponent pushes and the resign button leave the board as it is, so a
    colour that arrives with the join confirmation does not turn the
    board until the next drawing. *)
Theorem pushes_keep_selection (e : Event) (v : View G) :
  let v' := handle gameId e v in
  match e with
  | click _ => True
  | game_info _ | move_made _ =>
      selectedSquare v' = selectedSquare v /\
      if stopsAtLoad e v then v' = v
      else unmarked (boardElement v') /\
           map data_square (boardElement v')
           = squareNames (JS.strict_eq (playerColor v') (Some "black"))
  | _ =>
      selectedSquare v' = selectedSquare v /\
      boardElement v' = boardElement v
  end.
Proof.
  cbv zeta. destruct e as [c|data|data_fen| | |sq|confirmed];
    cbn [handle stopsAtLoad]; unfold takes.
  - unfold on_game_joined. rewrite updatePlayerStatus_board.
    destruct (updatePlayerStatus_pageOnly (set_playerColor c v))
      as (_ & _ & -> & _). now split.
  - unfold on_game_info.
    destruct (info_fen data) as [fen|];
      [destruct (fen =? ""); cbn [negb andb];
       [|destruct (load (game v) fen) as [g'|]; cbn [negb];
         [|now split]]|];
      match goal with
      | |- context [game_info_rest data ?w] =>
          destruct (game_info_rest_model data w) as (_ & _ & -> & _);
          split; [reflexivity|apply game_info_rest_board]
      end.
  - unfold on_move_made. destruct (load (game v) data_fen) as [g'|];
      cbn [negb]; [|now split].
    destruct (move_made_loaded g' v) as (_ & -> & -> & _ & ->).
    repeat split;
      [apply renderBoard_unmarked|apply (renderBoard_names (set_game g' v))].
  - unfold on_player_joined.
    rewrite updatePlayerStatus_board, updateGameStatus_board.
    assert (H2 : pageOnly v (updatePlayerStatus (updateGameStatus "active" v))).
    { eapply pageOnly_trans;
        [apply updateGameStatus_pageOnly|apply updatePlayerStatus_pageOnly]. }
    destruct H2 as (_ & _ & -> & _). now split.
  - unfold on_player_disconnected. rewrite updateGameStatus_board.
    destruct (updateGameStatus_pageOnly "disconnected" v)
      as (_ & _ & -> & _). now split.
  - exact I.
  - unfold resignClick. rewrite updateGameStatus_resigned.
    now destruct confirmed.
Qed.

(** ** Reachable states *)

Lemma handle_outbox (e : Event) (v : View G) :
  emitted (handle gameId e v) = emitted v \/
  exists move fen,
    emitted (handle gameId e v)
    = (emitted v ++ [make_move gameId move fen])%list.
Proof.
  destruct e as [c|data|data_fen| | |sq|confirmed]; cbn [handle].
  - left. unfold on_game_joined.
    now destruct (updatePlayerStatus_pageOnly (set_playerColor c v))
      as (_ & _ & _ & ->).
  - left. unfold on_game_info.
    destruct (info_fen data) as [fen|];
      [destruct (fen =? "");
       [|destruct (load (game v) fen) as [g'|]; [|reflexivity]]|];
      match goal with
      | |- context [game_info_rest data ?w] =>
          now destruct (game_info_rest_model data w) as (_ & _ & _ & ->)
      end.
  - left. unfold on_move_made.
    destruct (load (game v) data_fen) as [g'|]; [|reflexivity].
    now destruct (move_made_loaded g' v) as (_ & _ & _ & -> & _).
  - left. unfold on_player_joined.
    destruct (updatePlayerStatus_pageOnly (updateGameStatus "active" v))
      as (_ & _ & _ & ->).
    now destruct (updateGameStatus_pageOnly "active" v) as (_ & _ & _ & ->).
  - left. unfold on_player_disconnected.
    now destruct (updateGameStatus_pageOnly "disconnected" v)
      as (_ & _ & _ & ->).
  - destruct (querySelector sq (boardElement v)); [|now left].
    destruct (handleSquareClick_effect sq v)
      as [(_ & He)|(selected & m & _ & _ & _ & He)]; [now left|].
    right. eauto.
  - left. unfold resignClick. rewrite updateGameStatus_resigned.
    now destruct confirmed.
Qed.

(** X11.  In every state the page can reach, the events sent are the join
    request for the game of the page followed by [make_move] events for
    that same game and nothing else. *)
Theorem outbox_of_reachable (v : View G) :
  reachable gameId v ->
  exists moves_sent,
    emitted v = join_game gameId :: moves_sent /\
    Forall (isMoveOf gameId) moves_sent.
Proof.
  induction 1 as [status white black|e v Hv (sent & Hsent & Hall)].
  - exists []. split; [reflexivity|constructor].
  - destruct (handle_outbox e v) as [->|(move & fen' & ->)].
    + now exists sent.
    + exists (sent ++ [make_move gameId move fen'])%list.
      rewrite Hsent. split; [reflexivity|].
      apply Forall_app. split; [assumption|].
      constructor; [now exists move, fen'|constructor].
Qed.

Lemma handleSquareClick_board (sq : string) (v : View G) :
  boardElement (handleSquareClick gameId sq v) = boardElement v \/
  exists flipped,
    map data_square (boardElement (handleSquareClick gameId sq v))
    = squareNames flipped.
Proof.
  assert (Hmarks : forall ms (w : View G),
             map data_square
                 (fold_left
                    (fun b move => addClassAt (to move) "possible-move" b)
                    ms (boardElement (renderBoard w)))
             = squareNames (JS.strict_eq (playerColor w) (Some "black"))).
  { intros ms w.
    apply (fold_left_keeps (fun b => map data_square b = _));
      [|apply renderBoard_names].
    intros b m Hb. now rewrite addClassAt_names. }
  unfold handleSquareClick.
  destruct (JS.truthy (playerColor v)); [|now left].
  destruct (isPlayersTurn v); [|now left].
  destruct (isGameOver (game v)); [now left|]. cbn [negb].
  destruct (selectedSquare v) as [selected|].
  - destruct (selected =? "").
    { destruct (isOwnPiece _ v); [|now left].
      right. eexists. unfold highlightPossibleMoves.
      cbn [boardElement set_boardElement]. apply Hmarks. }
    destruct (selected =? sq).
    { right. eexists. apply renderBoard_names. }
    unfold game_move.
    destruct (originalMove (game v) selected sq "q") as [m g'| |].
    + right. eexists.
      rewrite updatePlayerStatus_board, updateGameStatus_board,
        checkGameStatus_board.
      cbn [boardElement updateMovesList set_movesList].
      apply renderBoard_names.
    + right. eexists.
      destruct (JS.truthy (selectedSquare (renderBoard _)));
        [unfold highlightPossibleMoves;
         cbn [boardElement set_boardElement]; apply Hmarks
        |apply renderBoard_names].
    + now left.
  - destruct (isOwnPiece _ v); [|now left].
    right. eexists. unfold highlightPossibleMoves.
    cbn [boardElement set_boardElement]. apply Hmarks.
Qed.

(** X12.  In every state the page can reach, the board is either still
    empty (nothing has been drawn yet) or consists of the sixty-four
    squares in one of the two orders of [renderBoard]: the listeners that
    call [handleSquareClick] only ever pass one of these names. *)
Theorem board_of_reachable (v : View G) :
  reachable gameId v ->
  boardElement v = [] \/
  exists flipped, map data_square (boardElement v) = squareNames flipped.
Proof.
  induction 1 as [status white black|e v Hv IH]; [now left|].
  pose proof (pushes_keep_board e v) as Hpush.
  destruct e as [c|data|data_fen| | |sq|confirmed]; cbn [handle] in *.
  - now rewrite Hpush.
  - destruct Hpush as [-> | Hpush]; [exact IH|right; eexists; exact Hpush].
  - destruct Hpush as [-> | Hpush]; [exact IH|right; eexists; exact Hpush].
  - now rewrite Hpush.
  - now rewrite Hpush.
  - destruct (querySelector sq (boardElement v)); [|exact IH].
    destruct (handleSquareClick_board sq v) as [->|Hnames];
      [exact IH|now right].
  - now rewrite Hpush.
Qed.

(** ** The move list *)

(** After an even number of entries the loop of [updateMovesList] starts
    a new row. *)
Lemma moveItems_app (history rest : list string) (i : Z) :
  Nat.even (length history) = true ->
  moveItems i (history ++ rest)
  = (moveItems i history
       ++ moveItems (i + Z.of_nat (length history)) rest)%list.
Proof.
  assert (Hall : forall n (h : list string) (j : Z),
             (length h <= n)%nat ->
             Nat.even (length h) = true ->
             moveItems j (h ++ rest)
             = (moveItems j h
                  ++ moveItems (j + Z.of_nat (length h)) rest)%list).
  { induction n as [|n IH]; intros h j Hn Heven.
    - destruct h; [|cbn in Hn; lia].
      cbn [app moveItems length Z.of_nat]. now rewrite Z.add_0_r.
    - destruct h as [|whiteMove [|blackMove h]].
      + cbn [app moveItems length Z.of_nat]. now rewrite Z.add_0_r.
      + discriminate Heven.
      + change ((whiteMove :: blackMove :: h) ++ rest)%list
          with (whiteMove :: blackMove :: (h ++ rest))%list.
        cbn [moveItems].
        rewrite (IH h (j + 2)) by (cbn in Hn; lia || exact Heven).
        cbn [app length]. do 3 f_equal. lia. }
  now apply (Hall (length history)).
Qed.

(** X13.  How the move list grows.  When the history holds an even number
    of moves, the rows for the history with one more move are the rows
    before followed by one new row, numbered half the length plus one,
    that holds the move alone; with the reply added as well, that last
    row holds both moves: the reply completes the row and adds none. *)
Theorem moveItems_next_move (history : list string)
        (whiteMove blackMove : string) :
  Nat.even (length history) = true ->
  let moveNumber := Z.of_nat (length history) / 2 + 1 in
  moveItems 0 (history ++ [whiteMove])
  = (moveItems 0 history ++ [moveRow moveNumber whiteMove ""])%list /\
  moveItems 0 (history ++ [whiteMove; blackMove])
  = (moveItems 0 history ++ [moveRow moveNumber whiteMove blackMove])%list.
Proof.
  intros Heven. cbv zeta. rewrite !moveItems_app by assumption.
  split; reflexivity.
Qed.

(** ** The player indicators *)

(** X14.  For the colours [white] and [black], [updatePlayerStatus]
    writes the indicator of the local side to read that it is the local
    player's, and the other indicator by the same test that lets clicks
    through: it reads waiting when the local player is to move, and move
    otherwise. *)
Theorem indicators_follow_turn (v : View G) :
  playerColor v = Some "white" \/ playerColor v = Some "black" ->
  let v' := updatePlayerStatus v in
  let other := if isPlayersTurn v then "Ожидание" else "Ход" in
  if JS.strict_eq (playerColor v) (Some "white")
  then whiteStatus v' = "Вы" /\ blackStatus v' = other
  else blackStatus v' = "Вы" /\ whiteStatus v' = other.
Proof.
  intros Hcolor. cbv zeta.
  unfold updatePlayerStatus, isPlayersTurn, playerLetter.
  destruct Hcolor as [-> | ->];
    cbn [JS.truthy JS.strict_eq JS.char0 negb String.eqb Ascii.eqb Bool.eqb
         game whiteStatus blackStatus set_whiteStatus set_blackStatus];
    destruct (turn (game v)); split; reflexivity.
Qed.

(** ** A pushed move *)

(** X15.  A pushed move whose position the engine takes loads it, builds
    the move list from the history of the loaded position, and writes
    the status line only when the loaded position is terminal (checkmate,
    else draw, else stalemate).  Otherwise the status line stays, and in
    every case the two player indicators, the colour and the selection
    stay as they were: a pushed move alone does not announce whose turn
    it is.  When the engine refuses the position, the handler stops at
    its first line and the whole state stays as it was. *)
Theorem move_made_effect (data_fen : string) (v : View G) :
  let v' := on_move_made data_fen v in
  match load (game v) data_fen with
  | Some g' =>
      game v' = g' /\
      movesList v' = moveItems 0 (map san (history g')) /\
      gameStatus v'
      = (if isCheckmate g'
         then "Мат! Победили "
                ++ match turn g' with
                   | White => "черные"
                   | Black => "белые"
                   end
         else if isDraw g' then "Ничья"
         else if isStalemate g' then "Пат"
         else gameStatus v) /\
      whiteStatus v' = whiteStatus v /\
      blackStatus v' = blackStatus v /\
      playerColor v' = playerColor v /\
      selectedSquare v' = selectedSquare v
  | None => v' = v
  end.
Proof.
  cbv zeta. unfold on_move_made.
  destruct (load (game v) data_fen) as [g'|]; [|reflexivity]. cbv zeta.
  set (v1 := set_game g' v).
  set (v2 := renderBoard v1). set (v3 := updateMovesList v2).
  destruct (renderBoard_pageOnly v1) as (Hg2 & Hc2 & Hs2 & _).
  destruct (renderBoard_texts v1) as (Ht2 & Hw2 & Hb2 & _).
  fold v2 in Hg2, Hc2, Hs2, Ht2, Hw2, Hb2.
  assert (Hg3 : game v3 = g') by exact Hg2.
  assert (Hstatus : forall status text,
             statusText g' status = Some text ->
             updateGameStatus status v3 = set_gameStatus text v3).
  { intros status text Htext. unfold updateGameStatus.
    now rewrite Hg3, Htext. }
  unfold checkGameStatus. rewrite Hg3.
  destruct (isCheckmate g');
    [rewrite (Hstatus "checkmate" _ eq_refl)
    |destruct (isDraw g');
     [rewrite (Hstatus "draw" _ eq_refl)
     |destruct (isStalemate g');
      [rewrite (Hstatus "stalemate" _ eq_refl)|]]];
    cbn [game movesList gameStatus whiteStatus blackStatus playerColor
         selectedSquare set_gameStatus v3 updateMovesList set_movesList];
    rewrite Hg2, Hc2, Hs2, ?Ht2, Hw2, Hb2; repeat split.
Qed.

(** ** A game-info push *)

(** X16.  A game-info push takes each of its three fields only when the
    field is present and not empty.  A position is loaded first, so a
    status text that depends on the side to move is computed from the
    loaded position; a status outside the six known ones writes nothing.
    The board is drawn for the resulting colour, and the move list is
    left as it was.  When the push carries a position the engine
    refuses, the handler stops at [game.load]: colour and status are not
    taken, nothing is drawn, and the whole state stays as it was. *)
Theorem game_info_effect (data : GameInfo) (v : View G) :
  let loaded := match info_fen data with
                | Some fen => if fen =? "" then Some (game v)
                              else load (game v) fen
                | None => Some (game v)
                end in
  let color' := if JS.truthy (info_color data) then info_color data
                else playerColor v in
  let v' := on_game_info data v in
  match loaded with
  | Some g' =>
      game v' = g' /\
      playerColor v' = color' /\
      gameStatus v'
      = match info_status data with
        | Some status =>
            if status =? "" then gameStatus v
            else match statusText g' status with
                 | Some text => text
                 | None => gameStatus v
                 end
        | None => gameStatus v
        end /\
      map data_square (boardElement v')
      = squareNames (JS.strict_eq color' (Some "black")) /\
      movesList v' = movesList v
  | None => v' = v
  end.
Proof.
  assert (Hrest : forall w : View G,
             let r := game_info_rest data w in
             game r = game w /\
             playerColor r = (if JS.truthy (info_color data)
                              then info_color data else playerColor w) /\
             gameStatus r
             = match info_status data with
               | Some status =>
                   if status =? "" then gameStatus w
                   else match statusText (game w) status with
                        | Some text => text
                        | None => gameStatus w
                        end
               | None => gameStatus w
               end /\
             map data_square (boardElement r)
             = squareNames
                 (JS.strict_eq (if JS.truthy (info_color data)
                                then info_color data else playerColor w)
                               (Some "black")) /\
             movesList r = movesList w).
  { intros w. cbv zeta.
    destruct (game_info_rest_model data w) as (Hg & Hc & _ & _).
    destruct (game_info_rest_board data w) as (_ & Hnames).
    rewrite Hc in Hnames.
    destruct (game_info_rest_drawn data w)
      as (w1 & Hw1 & _ & _ & _ & _ & Hm & Ht).
    repeat split; try assumption; rewrite Hw1.
    - destruct (updatePlayerStatus_keeps (renderBoard w1)) as (_ & ->).
      now destruct (renderBoard_texts w1) as (-> & _).
    - destruct (updatePlayerStatus_keeps (renderBoard w1)) as (-> & _).
      now destruct (renderBoard_texts w1) as (_ & _ & _ & ->). }
  cbv zeta. unfold on_game_info.
  destruct (info_fen data) as [fen|];
    [destruct (fen =? "");
     [|destruct (load (game v) fen) as [g'|]; [|reflexivity]]|];
    apply Hrest.
Qed.

(** ** What the board shows in every reachable state *)

Lemma Forall_addClassAt (P : SquareEl -> Prop) (sq c : string)
      (b : list SquareEl) :
  (forall e, P e -> P (classList_add c e)) ->
  Forall P b -> Forall P (addClassAt sq c b).
Proof.
  intros Hadd. induction b as [|e b IH]; cbn [addClassAt]; intros Hb;
    [constructor|].
  inversion Hb as [|? ? He Hrest]; subst.
  destruct (data_square e =? sq); constructor; auto.
Qed.

(** A property of the square elements, relative to the position and the
    selection, holds of the board in every reachable state when the
    fresh squares of a drawing have it and when it survives the classes
    added later: [last-move], [check], and [possible-move] while a square
    is selected. *)
Lemma board_invariant (P : G -> option string -> SquareEl -> Prop) :
  (forall (v : View G) rank file,
      P (game v) (selectedSquare v) (squareElement v rank file)) ->
  (forall g s c e,
      c = "last-move" \/ c = "check"
      \/ (c = "possible-move" /\ s <> None) ->
      P g s e -> P g s (classList_add c e)) ->
  forall v : View G,
    reachable gameId v ->
    Forall (P (game v) (selectedSquare v)) (boardElement v).
Proof.
  intros Hfresh Hadd.
  assert (Hrender : forall w : View G,
             Forall (P (game w) (selectedSquare w))
                    (boardElement (renderBoard w))).
  { intros w. unfold renderBoard. apply highlights_keep_each.
    - intros c e Hc. apply Hadd. tauto.
    - apply Forall_forall. intros e He.
      apply in_flat_map in He as (rank & _ & He).
      apply in_map_iff in He as (file & <- & _). apply Hfresh. }
  assert (Hpick : forall sq (w : View G),
             let w' := highlightPossibleMoves
                         sq (renderBoard (set_selectedSquare (Some sq) w)) in
             Forall (P (game w') (selectedSquare w')) (boardElement w')).
  { intros sq w. cbv zeta.
    set (w1 := set_selectedSquare (Some sq) w).
    destruct (renderBoard_pageOnly w1) as (Hg & _ & Hs & _).
    unfold highlightPossibleMoves.
    cbn [game selectedSquare boardElement set_boardElement].
    rewrite Hg, Hs.
    apply (fold_left_keeps (Forall (P (game w1) (selectedSquare w1))));
      [|apply Hrender].
    intros b m Hb. apply Forall_addClassAt; [|exact Hb].
    intros e. apply Hadd. right. right. split; [reflexivity|discriminate]. }
  assert (Hframe : forall w w' : View G,
             pageOnly w w' -> boardElement w' = boardElement w ->
             Forall (P (game w) (selectedSquare w)) (boardElement w) ->
             Forall (P (game w') (selectedSquare w')) (boardElement w')).
  { intros w w' (-> & _ & -> & _) ->. exact (fun Hw => Hw). }
  induction 1 as [status white black|e v Hv IH]; [constructor|].
  destruct e as [c|data|data_fen| | |sq|confirmed]; cbn [handle].
  - unfold on_game_joined.
    apply (Hframe (set_playerColor c v));
      [apply updatePlayerStatus_pageOnly|apply updatePlayerStatus_board
      |exact IH].
  - assert (Hrest : forall w : View G,
               Forall (P (game (game_info_rest data w))
                         (selectedSquare (game_info_rest data w)))
                      (boardElement (game_info_rest data w))).
    { intros w.
      destruct (game_info_rest_drawn data w) as (w1 & -> & _).
      apply (Hframe (renderBoard w1));
        [apply updatePlayerStatus_pageOnly|apply updatePlayerStatus_board|].
      destruct (renderBoard_pageOnly w1) as (-> & _ & -> & _).
      apply Hrender. }
    unfold on_game_info.
    destruct (info_fen data) as [fen|]; [|apply Hrest].
    destruct (fen =? ""); [apply Hrest|].
    destruct (load (game v) fen) as [g'|]; [apply Hrest|exact IH].
  - unfold on_move_made.
    destruct (load (game v) data_fen) as [g'|]; [|exact IH]. cbv zeta.
    set (v1 := set_game _ v).
    apply (Hframe (renderBoard v1)).
    + eapply pageOnly_trans;
        [apply updateMovesList_pageOnly|apply checkGameStatus_pageOnly].
    + now rewrite checkGameStatus_board.
    + destruct (renderBoard_pageOnly v1) as (-> & _ & -> & _).
      apply Hrender.
  - unfold on_player_joined. apply (Hframe v); [| |exact IH].
    + eapply pageOnly_trans;
        [apply updateGameStatus_pageOnly|apply updatePlayerStatus_pageOnly].
    + now rewrite updatePlayerStatus_board, updateGameStatus_board.
  - unfold on_player_disconnected.
    apply (Hframe v);
      [apply updateGameStatus_pageOnly|apply updateGameStatus_board|exact IH].
  - destruct (querySelector sq (boardElement v)); [|exact IH].
    unfold handleSquareClick.
    destruct (JS.truthy (playerColor v)); [|exact IH].
    destruct (isPlayersTurn v); [|exact IH].
    destruct (isGameOver (game v)); [exact IH|]. cbn [negb].
    destruct (selectedSquare v) as [selected|] eqn:Hsel.
    + destruct (selected =? "").
      { destruct (isOwnPiece _ v); [apply Hpick|].
        now rewrite Hsel. }
      destruct (selected =? sq).
      { destruct (renderBoard_pageOnly (set_selectedSquare None v))
          as (-> & _ & -> & _). apply Hrender. }
      unfold game_move.
      destruct (originalMove (game v) selected sq "q") as [m g'| |].
      * match goal with
        | |- context [renderBoard ?w] =>
            apply (Hframe (renderBoard w));
              [|now rewrite updatePlayerStatus_board, updateGameStatus_board,
                  checkGameStatus_board|];
              [|destruct (renderBoard_pageOnly w) as (-> & _ & -> & _);
                apply Hrender]
        end.
        eapply pageOnly_trans; [apply updateMovesList_pageOnly|].
        eapply pageOnly_trans; [apply checkGameStatus_pageOnly|].
        eapply pageOnly_trans;
          [apply updateGameStatus_pageOnly|apply updatePlayerStatus_pageOnly].
      * set (v1 := set_selectedSquare _ v).
        destruct (renderBoard_pageOnly v1) as (Hg & _ & Hs & _).
        destruct (JS.truthy (selectedSquare (renderBoard v1))) eqn:Htruthy.
        -- unfold highlightPossibleMoves.
           cbn [game selectedSquare boardElement set_boardElement].
           rewrite Hs in Htruthy. rewrite Hg, Hs.
           apply (fold_left_keeps
                    (Forall (P (game v1) (selectedSquare v1))));
             [|apply Hrender].
           intros b m Hb. apply Forall_addClassAt; [|exact Hb].
           intros e. apply Hadd. right. right. split; [reflexivity|].
           intros Hnone. now rewrite Hnone in Htruthy.
        -- rewrite Hg, Hs. apply Hrender.
      * now rewrite Hsel.
    + destruct (isOwnPiece _ v); [apply Hpick|]. now rewrite Hsel.
  - unfold resignClick. rewrite updateGameStatus_resigned.
    now destruct confirmed.
Qed.

(** X17.  In every state the page can reach, the board shows the
    position the engine holds: each square element has exactly the piece
    element that [game.get] answers for its square.  A load or a move is
    always followed by a drawing. *)
Theorem reachable_board_shows_position (v : View G) :
  reachable gameId v ->
  Forall (fun e => children e
                   = pieceChildren (get (game v) (data_square e)))
         (boardElement v).
Proof.
  apply (board_invariant
           (fun g _ e => children e
                         = pieceChildren (get g (data_square e)))).
  - intros w rank file.
    now rewrite squareElement_children, squareElement_name.
  - intros g s c e _ He. exact He.
Qed.

(** X18.  In every state the page can reach, a square element has the
    class [selected] exactly when its square is the selected one: the
    selection never changes without a drawing. *)
Theorem reachable_board_marks_selection (v : View G) :
  reachable gameId v ->
  Forall (fun e => hasClass "selected" e
                   = JS.strict_eq (selectedSquare v) (Some (data_square e)))
         (boardElement v).
Proof.
  apply (board_invariant
           (fun _ s e => hasClass "selected" e
                         = JS.strict_eq s (Some (data_square e)))).
  - intros w rank file.
    rewrite squareElement_classes, squareElement_name.
    destruct (Z.eqb _ 0); cbn [String.eqb Ascii.eqb Bool.eqb orb andb];
      reflexivity.
  - intros g s c e Hc He. rewrite hasClass_classList_add, He.
    destruct Hc as [-> | [-> | (-> & _)]];
      cbn [String.eqb Ascii.eqb Bool.eqb]; now rewrite orb_false_r.
Qed.

(** X19.  In every state the page can reach, destination marks are shown
    only while a square is selected: with no selection, no square element
    has the class [possible-move]. *)
Theorem reachable_marks_need_selection (v : View G) :
  reachable gameId v ->
  selectedSquare v = None ->
  unmarked (boardElement v).
Proof.
  intros Hv Hsel.
  pose proof (board_invariant
                (fun _ s e => s = None -> hasClass "possible-move" e = false))
    as Hinv.
  assert (Hall : Forall (fun e => selectedSquare v = None ->
                                  hasClass "possible-move" e = false)
                        (boardElement v)).
  { apply Hinv; [| |exact Hv].
    - intros w rank file _. apply squareElement_unmarked.
    - intros g s c e Hc He Hs. rewrite hasClass_classList_add, (He Hs).
      destruct Hc as [-> | [-> | (_ & Hsome)]]; [reflexivity..|].
      contradiction. }
  unfold unmarked. apply Forall_forall. intros e He.
  now apply (proj1 (Forall_forall _ _) Hall).
Qed.

End TransitionFacts.

(** * Further concrete games *)

Section MoreConcreteGames.

Import Scripted Play MorePlay.

Lemma clicks_ignored_witness :
  let v := white_holds_g1_stale in
  playerColor v = Some "white" /\
  turn (game v) = Black /\
  forallb (fun sq => match querySelector sq (boardElement v) with
                     | Some _ => true
                     | None => false
                     end) ["g1"; "b1"; "a3"] = true /\
  acceptsClicks v = false /\
  run gameId (map click ["g1"; "b1"; "a3"]) v = v.
Proof.
  cbv zeta. repeat (split; [vm_compute; reflexivity|]).
  apply (clicks_ignored gameId white_holds_g1_stale ["g1"; "b1"; "a3"]).
  vm_compute. reflexivity.
Defined.

Lemma pushes_keep_selection_witness :
  let refused := move_made "not a position" in
  let taken := move_made after_Nf3 in
  stopsAtLoad refused white_holds_g1 = true /\
  handle gameId refused white_holds_g1 = white_holds_g1 /\
  shows "possible-move" "f3" (boardElement white_holds_g1) = true /\
  stopsAtLoad taken white_holds_g1 = false /\
  selectedSquare (handle gameId taken white_holds_g1) = Some "g1" /\
  unmarked (boardElement (handle gameId taken white_holds_g1)).
Proof.
  cbv zeta.
  assert (Hstop : stopsAtLoad (move_made "not a position") white_holds_g1
                  = true) by (vm_compute; reflexivity).
  assert (Hgo : stopsAtLoad (move_made after_Nf3) white_holds_g1 = false)
    by (vm_compute; reflexivity).
  pose proof (pushes_keep_selection
                gameId (move_made "not a position") white_holds_g1)
    as Hrefused.
  pose proof (pushes_keep_selection
                gameId (move_made after_Nf3) white_holds_g1) as Htaken.
  cbv zeta in Hrefused, Htaken. rewrite Hstop in Hrefused.
  rewrite Hgo in Htaken.
  destruct Hrefused as (_ & Hsame). destruct Htaken as (Hsel & Hun & _).
  split; [exact Hstop|]. split; [exact Hsame|].
  split; [vm_compute; reflexivity|]. split; [exact Hgo|].
  split; [|exact Hun]. rewrite Hsel. vm_compute. reflexivity.
Defined.

Lemma move_made_effect_witness :
  on_move_made "not a position" white_holds_g1 = white_holds_g1 /\
  gameStatus (on_move_made mated black_holds_d8) = "Мат! Победили черные" /\
  whiteStatus (on_move_made mated black_holds_d8)
  = whiteStatus black_holds_d8.
Proof.
  pose proof (move_made_effect "not a position" white_holds_g1) as Hrefused.
  pose proof (move_made_effect mated black_holds_d8) as Htaken.
  cbv zeta in Hrefused, Htaken.
  assert (Hnone : load (game white_holds_g1) "not a position" = None)
    by (vm_compute; reflexivity).
  assert (Hsome : load (game black_holds_d8) mated
                  = Some {| position := mated; played := [] |})
    by (vm_compute; reflexivity).
  rewrite Hnone in Hrefused. rewrite Hsome in Htaken.
  destruct Htaken as (_ & _ & Hstatus & Hwhite & _).
  split; [exact Hrefused|]. split; [|exact Hwhite].
  rewrite Hstatus. vm_compute. reflexivity.
Defined.

Lemma game_info_effect_witness :
  on_game_info (with_fen "8/8 w") white_holds_g1 = white_holds_g1 /\
  position (game (on_game_info (with_fen after_Nf3_Nf6) white_holds_g1))
  = after_Nf3_Nf6.
Proof.
  pose proof (game_info_effect (with_fen "8/8 w") white_holds_g1)
    as Hrefused.
  pose proof (game_info_effect (with_fen after_Nf3_Nf6) white_holds_g1)
    as Htaken.
  cbv zeta in Hrefused, Htaken.
  assert (Hnone : load (game white_holds_g1) "8/8 w" = None)
    by (vm_compute; reflexivity).
  assert (Hsome : load (game white_holds_g1) after_Nf3_Nf6
                  = Some {| position := after_Nf3_Nf6; played := [] |})
    by (vm_compute; reflexivity).
  cbn [with_fen info_fen] in Hrefused, Htaken.
  change ("8/8 w" =? "") with false in Hrefused.
  change (after_Nf3_Nf6 =? "") with false in Htaken.
  rewrite Hnone in Hrefused. rewrite Hsome in Htaken.
  destruct Htaken as (Hg & _).
  split; [exact Hrefused|]. now rewrite Hg.
Defined.

Lemma first_click_witness :
  let v' := handleSquareClick gameId "g1" white_ready in
  acceptsClicks white_ready = true /\
  selectedSquare white_ready = None /\
  selectedSquare v' = Some "g1" /\
  shows "possible-move" "f3" (boardElement v') = true /\
  shows "possible-move" "h3" (boardElement v') = true /\
  shows "possible-move" "e2" (boardElement v') = false /\
  game v' = game white_ready /\
  emitted v' = emitted white_ready.
Proof.
  cbv zeta.
  assert (Hguard : acceptsClicks white_ready = true)
    by (vm_compute; reflexivity).
  assert (Hsel : selectedSquare white_ready = None)
    by (vm_compute; reflexivity).
  pose proof (first_click gameId white_ready "g1" Hguard Hsel) as Hclick.
  cbv zeta in Hclick.
  assert (Hown : isOwnPiece (get (game white_ready) "g1") white_ready = true)
    by (vm_compute; reflexivity).
  rewrite Hown in Hclick. destruct Hclick as (Hs & _ & Hm & Hg & He).
  rewrite Hs, Hg, He, !Hm. vm_compute. repeat split.
Defined.

Lemma outbox_of_reachable_witness :
  exists moves_sent,
    emitted (handle gameId (click "f3") white_holds_g1)
    = join_game gameId :: moves_sent /\
    Forall (isMoveOf gameId) moves_sent.
Proof.
  apply (outbox_of_reachable gameId).
  apply reachable_step. unfold white_holds_g1.
  apply run_reachable, page_reachable.
Defined.

Lemma board_of_reachable_witness :
  boardElement white_holds_g1 = [] \/
  exists flipped,
    map data_square (boardElement white_holds_g1) = squareNames flipped.
Proof.
  apply (board_of_reachable gameId).
  unfold white_holds_g1. apply run_reachable, page_reachable.
Defined.

Lemma moveItems_next_move_witness :
  moveItems 0 ["e4"; "e5"; "Nf3"] = ["1. e4 e5"; "2. Nf3 "] /\
  moveItems 0 ["e4"; "e5"; "Nf3"; "Nc6"] = ["1. e4 e5"; "2. Nf3 Nc6"].
Proof.
  destruct (moveItems_next_move ["e4"; "e5"] "Nf3" "Nc6" eq_refl)
    as (Hone & Htwo).
  split; [exact Hone|exact Htwo].
Defined.

Lemma renderBoard_marks_last_move_witness :
  let b := boardElement
             (renderBoard (handle gameId (click "f3") white_holds_g1)) in
  shows "last-move" "g1" b = true /\
  shows "last-move" "f3" b = true /\
  shows "last-move" "e2" b = false.
Proof.
  cbv zeta. rewrite !renderBoard_marks_last_move.
  vm_compute. repeat split.
Defined.

Lemma renderBoard_marks_check_witness :
  let b := boardElement (renderBoard black_sees_mate) in
  inCheck (game black_sees_mate) = true /\
  turn (game black_sees_mate) = White /\
  shows "check" "e1" b = true /\
  shows "check" "e8" b = false.
Proof.
  cbv zeta. rewrite !renderBoard_marks_check.
  vm_compute. repeat split.
Defined.

Lemma indicators_follow_turn_witness :
  playerColor white_ready = Some "white" /\
  isPlayersTurn white_ready = true /\
  whiteStatus (updatePlayerStatus white_ready) = "Вы" /\
  blackStatus (updatePlayerStatus white_ready) = "Ожидание".
Proof.
  assert (Hcolor : playerColor white_ready = Some "white")
    by (vm_compute; reflexivity).
  split; [exact Hcolor|]. split; [vm_compute; reflexivity|].
  exact (indicators_follow_turn white_ready (or_introl Hcolor)).
Defined.

Lemma reachable_board_shows_position_witness :
  let v := handle gameId (click "f3") white_holds_g1 in
  Forall (fun e => children e
                   = pieceChildren (get (game v) (data_square e)))
         (boardElement v).
Proof.
  cbv zeta. apply (reachable_board_shows_position gameId).
  apply reachable_step. unfold white_holds_g1.
  apply run_reachable, page_reachable.
Defined.

Lemma reachable_board_marks_selection_witness :
  Forall (fun e => hasClass "selected" e
                   = JS.strict_eq (selectedSquare white_holds_g1_stale)
                                  (Some (data_square e)))
         (boardElement white_holds_g1_stale).
Proof.
  apply (reachable_board_marks_selection gameId).
  apply reachable_step. unfold white_holds_g1.
  apply run_reachable, page_reachable.
Defined.

Lemma reachable_marks_need_selection_witness :
  let v := handle gameId (click "g1") white_holds_g1 in
  selectedSquare v = None /\ unmarked (boardElement v).
Proof.
  cbv zeta.
  assert (Hsel : selectedSquare (handle gameId (click "g1") white_holds_g1)
                 = None) by (vm_compute; reflexivity).
  split; [exact Hsel|].
  apply (reachable_marks_need_selection gameId); [|exact Hsel].
  apply reachable_step. unfold white_holds_g1.
  apply run_reachable, page_reachable.
Defined.

End MoreConcreteGames.
